(** * mcp-searchapi: the session gateway and the google-shopping-search tool

    A shallow embedding of [src/index.ts] (class [McpServerApp]) and
    [src/services/searchapi.ts] (class [SearchApiService]), with the
    properties the specification states about them.

    Conventions.
    - JavaScript strings are modelled by their UTF-8 bytes ([string]).
    - JavaScript numbers are modelled by integers ([Z]); the code only
      tests them for truthiness, passes them on, and prints them.
    - A value of type [T | undefined] is an [option T]; [x || d] is written
      out with the truthiness test of the type of [x].
    - Thrown exceptions are values of [js_error]; code that can throw or
      mutate state lives in the state-and-exception monad [M]. *)

From Stdlib Require Import ZArith Ascii String List Lia DecimalString.
From stdpp Require Import base option list strings gmap.

Set Warnings "-register-all".

Open Scope string_scope.
Open Scope list_scope.

(** ** JavaScript values *)

Module Js.

(** ToBoolean on strings, numbers and optional values. *)
Definition truthy_string (s : string) : bool :=
  match s with EmptyString => false | String _ _ => true end.

Definition truthy_number (n : Z) : bool := negb (n =? 0)%Z.

Definition truthy_opt {A} (t : A -> bool) (v : option A) : bool :=
  match v with Some a => t a | None => false end.

(** [v || d] where [v : string | undefined] and [d] is a string. *)
Definition or_string (v : option string) (d : string) : string :=
  match v with
  | Some s => if truthy_string s then s else d
  | None => d
  end.

(** [v || d] where [v : number | undefined] and [d] is a number. *)
Definition or_number (v : option Z) (d : Z) : Z :=
  match v with
  | Some n => if truthy_number n then n else d
  | None => d
  end.

(** Number::toString on an integer. *)
Definition number_to_string (n : Z) : string :=
  NilZero.string_of_int (Z.to_int n).

End Js.

(** ** JSON values and [JSON.stringify(value, null, 2)] *)

Module Json.

Inductive json :=
| JNull
| JBool (b : bool)
| JNum (n : Z)
| JStr (s : string)
| JArr (items : list json)
| JObj (props : list (string * json)).

(** Property read [o.k] on a parsed object (absent: [undefined]). *)
Fixpoint get (k : string) (props : list (string * json)) : option json :=
  match props with
  | [] => None
  | (k', v) :: rest => if String.eqb k k' then Some v else get k rest
  end.

(** ToBoolean on a JSON value. *)
Definition truthy (v : json) : bool :=
  match v with
  | JNull => false
  | JBool b => b
  | JNum n => Js.truthy_number n
  | JStr s => Js.truthy_string s
  | JArr _ | JObj _ => true
  end.

Definition dquote : ascii := "034"%char.
Definition backslash : ascii := "092"%char.
Definition newline : ascii := "010"%char.

Definition str1 (c : ascii) : string := String c EmptyString.

Definition hex_digit (n : nat) : ascii :=
  nth n (list_ascii_of_string "0123456789abcdef") "0"%char.

(** One code unit of QuoteJSONString: the quote, the backslash and the
    control characters are escaped, everything else is copied. *)
Definition quote_char (c : ascii) : string :=
  let n := nat_of_ascii c in
  if (n =? 34)%nat then String backslash (str1 dquote)
  else if (n =? 92)%nat then String backslash (str1 backslash)
  else if (n =? 8)%nat then String backslash "b"
  else if (n =? 12)%nat then String backslash "f"
  else if (n =? 10)%nat then String backslash "n"
  else if (n =? 13)%nat then String backslash "r"
  else if (n =? 9)%nat then String backslash "t"
  else if (n <? 32)%nat then
    String backslash ("u00" +:+ String (hex_digit (n / 16)) (str1 (hex_digit (n mod 16))))
  else str1 c.

Fixpoint quote_body (s : string) : string :=
  match s with
  | EmptyString => EmptyString
  | String c rest => quote_char c +:+ quote_body rest
  end.

Definition QuoteJSONString (s : string) : string :=
  String dquote (quote_body s +:+ str1 dquote).

Fixpoint indent (depth : nat) : string :=
  match depth with
  | O => EmptyString
  | S d => "  " +:+ indent d
  end.

(** [parts.join(sep)] *)
Fixpoint join (sep : string) (parts : list string) : string :=
  match parts with
  | [] => EmptyString
  | [p] => p
  | p :: rest => p +:+ sep +:+ join sep rest
  end.

Definition separator (depth : nat) : string :=
  "," +:+ str1 newline +:+ indent depth.

Definition wrap (opening closing : string) (depth : nat) (parts : list string) : string :=
  opening +:+ str1 newline +:+ indent (S depth)
    +:+ join (separator (S depth)) parts
    +:+ str1 newline +:+ indent depth +:+ closing.

(** SerializeJSONProperty with gap of two spaces; [depth] is the nesting
    level of the value. *)
Fixpoint serialize (depth : nat) (v : json) : string :=
  match v with
  | JNull => "null"
  | JBool true => "true"
  | JBool false => "false"
  | JNum n => Js.number_to_string n
  | JStr s => QuoteJSONString s
  | JArr [] => "[]"
  | JArr items => wrap "[" "]" depth (map (serialize (S depth)) items)
  | JObj [] => "{}"
  | JObj props =>
      wrap "{" "}" depth
        (map (fun kv => QuoteJSONString (fst kv) +:+ ": " +:+ serialize (S depth) (snd kv)) props)
  end.

(** [JSON.stringify(value, null, 2)] *)
Definition stringify (v : json) : string := serialize 0 v.

End Json.

(** String(value) on a JSON value (used by template literals).  The
    conversion of an object asks for its [toString] and then its
    [valueOf]: an object parsed from JSON that has a property [toString]
    of its own hides [Object.prototype.toString] behind a value that
    cannot be called, [valueOf] gives the object back, and the conversion
    throws a TypeError.  [None] stands for that TypeError.  An array is
    joined from the conversions of its items. *)
Module ToString.
Import Json.

Definition cannot_convert : string := "Cannot convert object to primitive value".

Fixpoint to_string (v : json) : option string :=
  match v with
  | JNull => Some "null"
  | JBool true => Some "true"
  | JBool false => Some "false"
  | JNum n => Some (Js.number_to_string n)
  | JStr s => Some s
  | JArr items =>
      option_map (join ",")
        ((fix items_to_strings (l : list json) : option (list string) :=
            match l with
            | [] => Some []
            | x :: l' =>
                match match x with JNull => Some EmptyString | _ => to_string x end,
                      items_to_strings l' with
                | Some a, Some b => Some (a :: b)
                | _, _ => None
                end
            end) items)
  | JObj props =>
      match get "toString" props with
      | Some _ => None
      | None => Some "[object Object]"
      end
  end.

End ToString.

(** ** Exceptions, logging and the monad of effectful code *)

Module Effects.
Import Json.

Record axios_response := {
  status : Z;
  statusText : string;
  data : json
}.

(** Values thrown by [throw]: instances of [Error] (created by
    [new Error(message)] or raised by the runtime), errors raised by
    axios, and values that are not instances of [Error]. *)
Inductive js_error :=
| JsError (message : string)
| TypeError (message : string)
| AxiosError (message : string) (response : option axios_response) (request : bool)
| Thrown (rendered : string).   (* not an Error; [rendered] is String(error) *)

(** [error instanceof Error ? error.message : String(error)] *)
Definition error_text (e : js_error) : string :=
  match e with
  | JsError m | TypeError m | AxiosError m _ _ => m
  | Thrown s => s
  end.

Inductive outcome (A : Type) :=
| Returned (a : A)
| Threw (e : js_error).
Arguments Returned {A} a.
Arguments Threw {A} e.

(** A computation over a mutable state [S] that returns or throws. *)
Definition M (S A : Type) : Type := S -> outcome A * S.

Definition ret {S A} (a : A) : M S A := fun s => (Returned a, s).

Definition throw {S A} (e : js_error) : M S A := fun s => (Threw e, s).

Definition bind {S A B} (m : M S A) (k : A -> M S B) : M S B :=
  fun s =>
    match m s with
    | (Returned a, s') => k a s'
    | (Threw e, s') => (Threw e, s')
    end.

(** [try { m } catch (error) { handler(error) }] *)
Definition try_catch {S A} (m : M S A) (handler : js_error -> M S A) : M S A :=
  fun s =>
    match m s with
    | (Returned a, s') => (Returned a, s')
    | (Threw e, s') => handler e s'
    end.

Definition gets {S A} (f : S -> A) : M S A := fun s => (Returned (f s), s).

Definition modify {S} (f : S -> S) : M S unit := fun s => (Returned tt, f s).

Inductive log_entry :=
| LogInfo (message : string)
| LogError (message : string) (error : string).

End Effects.

Declare Scope js_scope.
Delimit Scope js_scope with js.
Notation "x <- m ;; k" := (Effects.bind m (fun x => k))
  (at level 100, m at next level, right associativity) : js_scope.
Notation "m ;;; k" := (Effects.bind m (fun _ => k))
  (at level 100, right associativity) : js_scope.

(** ** [src/services/searchapi.ts] *)

Module SearchApi.
Import Json Effects.
Local Open Scope js_scope.

(** A property of an object whose TypeScript type marks it optional:
    the object may not have it, may have it with the value [undefined],
    or may have it with a value. *)
Inductive property (A : Type) :=
| Absent
| Undefined
| Defined (a : A).
Arguments Absent {A}.
Arguments Undefined {A}.
Arguments Defined {A} a.

(** [object.name]: [None] is [undefined]. *)
Definition property_value {A} (p : property A) : option A :=
  match p with
  | Defined a => Some a
  | Absent | Undefined => None
  end.

(** The optional properties of [interface GoogleShoppingSearchParams].
    With [F := property] this is an object the code holds; with
    [F := option] it is the query of a request, in which a parameter is
    sent with a value or is not sent. *)
Record Options (F : Type -> Type) := {
  gl : F string;
  hl : F string;
  location : F string;
  start : F Z;
  num : F Z;
  tbm : F string;
  tbs : F string;
  safe : F string;
  nfpr : F string;
  filter : F string
}.
Arguments gl {F} _.
Arguments hl {F} _.
Arguments location {F} _.
Arguments start {F} _.
Arguments num {F} _.
Arguments tbm {F} _.
Arguments tbs {F} _.
Arguments safe {F} _.
Arguments nfpr {F} _.
Arguments filter {F} _.

Record Params (F : Type -> Type) := {
  q : string;
  rest : Options F
}.
Arguments q {F} _.
Arguments rest {F} _.

(** [Omit<GoogleShoppingSearchParams, 'q'>], the type of the [options]
    argument, and [interface GoogleShoppingSearchParams]. *)
Definition SearchOptions : Type := Options property.
Definition GoogleShoppingSearchParams : Type := Params property.

(** [options = {}] *)
Definition no_options : SearchOptions :=
  {| gl := Absent; hl := Absent; location := Absent; start := Absent; num := Absent;
     tbm := Absent; tbs := Absent; safe := Absent; nfpr := Absent; filter := Absent |}.

(** One property of [{ ...base, ...over }]: the later object wins where
    it has the property, also where its value there is [undefined]. *)
Definition spread1 {A} (base over : property A) : property A :=
  match over with
  | Absent => base
  | Undefined | Defined _ => over
  end.

Definition spread (base over : SearchOptions) : SearchOptions :=
  {| gl := spread1 (gl base) (gl over);
     hl := spread1 (hl base) (hl over);
     location := spread1 (location base) (location over);
     start := spread1 (start base) (start over);
     num := spread1 (num base) (num over);
     tbm := spread1 (tbm base) (tbm over);
     tbs := spread1 (tbs base) (tbs over);
     safe := spread1 (safe base) (safe over);
     nfpr := spread1 (nfpr base) (nfpr over);
     filter := spread1 (filter base) (filter over) |}.

(** What axios puts in the query for [params]: a property whose value is
    [undefined] is left out, like one the object does not have. *)
Definition sent (o : SearchOptions) : Options option :=
  {| gl := property_value (gl o); hl := property_value (hl o);
     location := property_value (location o); start := property_value (start o);
     num := property_value (num o); tbm := property_value (tbm o);
     tbs := property_value (tbs o); safe := property_value (safe o);
     nfpr := property_value (nfpr o); filter := property_value (filter o) |}.

(** The request of [axios.get(this.baseUrl, { params, timeout, headers })]
    with [params = { engine, api_key, ...params }]: [search] holds the
    parameters of [...params] as they are sent. *)
Record http_get := {
  url : string;
  engine : string;
  api_key : string;
  search : Params option;
  timeout : Z;
  user_agent : string
}.

(** What [await axios.get(...)] does: it resolves with a response or
    rejects. *)
Inductive axios_result :=
| Resolved (response : axios_response)
| Rejected (error : js_error).

(** The state the service acts on: the outbound requests made so far and
    the log. *)
Record io := {
  calls : list http_get;
  logs : list log_entry
}.

Definition log (e : log_entry) : M io unit :=
  modify (fun s => {| calls := calls s; logs := logs s ++ [e] |}).

Definition baseUrl : string := "https://www.searchapi.io/api/v1/search".

Section Service.

(** [this.apiKey], and the remote end of [axios.get]. *)
Variable apiKey : string.
Variable axios_get : http_get -> axios_result.

Definition get_request (params : GoogleShoppingSearchParams) : http_get :=
  {| url := baseUrl;
     engine := "google_shopping";
     api_key := apiKey;
     search := {| q := q params; rest := sent (rest params) |};
     timeout := 30000;
     user_agent := "MCP-SearchAPI-Server/1.0.0" |}.

Definition await_axios_get (r : http_get) : M io axios_response :=
  fun s =>
    let s' := {| calls := calls s ++ [r]; logs := logs s |} in
    match axios_get r with
    | Resolved response => (Returned response, s')
    | Rejected e => (Threw e, s')
    end.

(** [response.data.shopping_results]: reading a property of [null]
    throws, reading a property a value does not have gives [undefined]. *)
Definition read_shopping_results (d : json) : M io (option json) :=
  match d with
  | JNull => throw (TypeError "Cannot read properties of null (reading 'shopping_results')")
  | JObj props => ret (get "shopping_results" props)
  | _ => ret None
  end.

(** [error.response.data?.message || error.response.statusText], still
    to be converted to a string. *)
Definition response_detail (r : axios_response) : json :=
  let m := match data r with
           | JObj props => get "message" props
           | _ => None
           end in
  match m with
  | Some v => if truthy v then v else JStr (statusText r)
  | None => JStr (statusText r)
  end.

(** The template literal
    [`SearchAPI request failed with status ${status}: ${detail}`]: it
    throws where the conversion of [detail] to a string does. *)
Definition response_message (r : axios_response) : M io string :=
  match ToString.to_string (response_detail r) with
  | Some detail =>
      ret ("SearchAPI request failed with status "
           +:+ Js.number_to_string (status r) +:+ ": " +:+ detail)
  | None => throw (TypeError ToString.cannot_convert)
  end.

Definition googleShoppingSSearch (params : GoogleShoppingSearchParams) : M io json :=
  try_catch
    (log (LogInfo "Starting Google Shopping search") ;;;
     response <- await_axios_get (get_request params) ;;
     _ <- read_shopping_results (data response) ;;
     log (LogInfo "Google Shopping search completed successfully") ;;;
     ret (data response))
    (fun error =>
       log (LogError "Google Shopping search failed" (error_text error)) ;;;
       match error with
       | AxiosError _ (Some response) _ =>
           message <- response_message response ;;
           throw (JsError message)
       | AxiosError _ None true =>
           throw (JsError "SearchAPI request failed: No response received")
       | _ =>
           throw (JsError ("SearchAPI request failed: " +:+ error_text error))
       end).

(** The object literal both search methods build. *)
Definition with_defaults (query : string) (options : SearchOptions) : GoogleShoppingSearchParams :=
  {| q := query;
     rest := spread
               {| gl := Defined (Js.or_string (property_value (gl options)) "us");
                  hl := Defined (Js.or_string (property_value (hl options)) "en");
                  location := Defined (Js.or_string (property_value (location options)) "United States");
                  start := Absent; num := Absent; tbm := Absent; tbs := Absent;
                  safe := Absent; nfpr := Absent; filter := Absent |}
               options |}.

(** [response.shopping_results || []] *)
Definition results_or_empty (response : json) : json :=
  let r := match response with
           | JObj props => get "shopping_results" props
           | _ => None
           end in
  match r with
  | Some v => if truthy v then v else JArr []
  | None => JArr []
  end.

Definition searchProducts (query : string) (options : SearchOptions) : M io json :=
  response <- googleShoppingSSearch (with_defaults query options) ;;
  ret (results_or_empty response).

Definition searchProductsWithMetadata (query : string) (options : SearchOptions) : M io json :=
  googleShoppingSSearch (with_defaults query options).

End Service.

(** [interface InstallmentInfo] and [interface ShoppingResult] *)
Record InstallmentInfo := {
  down_payment : string;
  extracted_down_payment : Z;
  months : string;
  extracted_months : Z;
  cost_per_month : string;
  extracted_cost_per_month : Z
}.

Record ShoppingResult := {
  position : Z;
  product_id : string;
  title : string;
  product_link : string;
  seller : string;
  offers : string;
  extracted_offers : Z;
  offers_link : string;
  price : string;
  extracted_price : Z;
  installment : option InstallmentInfo;
  rating : option Z;
  reviews : option Z;
  delivery : option string;
  thumbnail : string
}.

(** The parsed JSON object a [ShoppingResult] is at run time; an optional
    property that is absent is no property of the object. *)
Definition optional_prop {A} (k : string) (f : A -> json) (v : option A) : list (string * json) :=
  match v with
  | Some a => [(k, f a)]
  | None => []
  end.

Definition installment_json (i : InstallmentInfo) : json :=
  JObj [ ("down_payment", JStr (down_payment i));
         ("extracted_down_payment", JNum (extracted_down_payment i));
         ("months", JStr (months i));
         ("extracted_months", JNum (extracted_months i));
         ("cost_per_month", JStr (cost_per_month i));
         ("extracted_cost_per_month", JNum (extracted_cost_per_month i)) ].

Definition result_json (r : ShoppingResult) : json :=
  JObj ([ ("position", JNum (position r));
          ("product_id", JStr (product_id r));
          ("title", JStr (title r));
          ("product_link", JStr (product_link r));
          ("seller", JStr (seller r));
          ("offers", JStr (offers r));
          ("extracted_offers", JNum (extracted_offers r));
          ("offers_link", JStr (offers_link r));
          ("price", JStr (price r));
          ("extracted_price", JNum (extracted_price r)) ]
        ++ optional_prop "installment" installment_json (installment r)
        ++ optional_prop "rating" JNum (rating r)
        ++ optional_prop "reviews" JNum (reviews r)
        ++ optional_prop "delivery" JStr (delivery r)
        ++ [ ("thumbnail", JStr (thumbnail r)) ])%list.

Section Format.

(** [Number.prototype.toLocaleString], which depends on the locale of the
    host. *)
Variable toLocaleString : Z -> string.

(** [result.reviews?.toLocaleString() || 0] inside a template literal. *)
Definition reviews_text (r : option Z) : string :=
  match r with
  | Some n => if Js.truthy_string (toLocaleString n) then toLocaleString n else "0"
  | None => "0"
  end.

Definition format_entry (index : nat) (result : ShoppingResult) : string :=
  let lines :=
    ([ Js.number_to_string (Z.of_nat index + 1) +:+ ". **" +:+ title result +:+ "**";
      "   Seller: " +:+ seller result;
      "   Price: " +:+ price result ]
    ++ match rating result with
       | Some r =>
           if Js.truthy_number r
           then ["   Rating: " +:+ Js.number_to_string r +:+ "/5 ("
                 +:+ reviews_text (reviews result) +:+ " reviews)"]
           else []
       | None => []
       end
    ++ match delivery result with
       | Some d => if Js.truthy_string d then ["   Delivery: " +:+ d] else []
       | None => []
       end
    ++ match installment result with
       | Some i =>
           ["   Installment: " +:+ down_payment i +:+ " + " +:+ cost_per_month i
            +:+ " for " +:+ months i +:+ " months"]
       | None => []
       end
    ++ [ "   Product Link: " +:+ product_link result;
         "   Offers: " +:+ offers result +:+ " available" ])%list in
  join (str1 newline) lines.

Definition formatShoppingResults (results : list ShoppingResult) : string :=
  match results with
  | [] => "No shopping results found."
  | _ => join (str1 newline +:+ str1 newline) (imap format_entry results)
  end.

End Format.

End SearchApi.

(** ** [src/index.ts]: the google-shopping-search tool *)

Module Tool.
Import Json Effects SearchApi.
Local Open Scope js_scope.

(** *** The argument schema

    A zod schema parses the value of a property ([None] when the property
    is absent, that is [undefined]) and gives the parsed value, or [None]
    when it raises an issue. *)
Definition schema (A : Type) : Type := option json -> option A.

Definition z_string : schema string :=
  fun v => match v with Some (JStr s) => Some s | _ => None end.

Definition z_number : schema Z :=
  fun v => match v with Some (JNum n) => Some n | _ => None end.

Definition z_boolean : schema bool :=
  fun v => match v with Some (JBool b) => Some b | _ => None end.

(** [inner.default(d)]: [undefined] is replaced by [d]. *)
Definition z_default {A} (inner : schema A) (d : A) : schema A :=
  fun v => match v with None => Some d | Some _ => inner v end.

(** [inner.optional()]: [undefined] is accepted as it is, before [inner]
    sees it (so a default under it is not filled in; the callback fills
    the same defaults itself, in [searchOptions]). *)
Definition z_optional {A} (inner : schema A) : schema (option A) :=
  fun v => match v with None => Some None | Some _ => Some <$> inner v end.

(** The arguments the tool callback destructures. *)
Record ToolArgs := {
  query : string;
  arg_location : option string;
  country : option string;
  language : option string;
  maxResults : option Z;
  includeMetadata : option bool
}.

(** [z.object({ query: z.string(), location: z.string().optional(), ...,
    maxResults: z.number().default(10).optional(),
    includeMetadata: z.boolean().default(false).optional() })] applied to
    the arguments of a call. *)
Definition parse_arguments (arguments : json) : option ToolArgs :=
  match arguments with
  | JObj props =>
      q ← z_string (get "query" props);
      l ← z_optional z_string (get "location" props);
      c ← z_optional z_string (get "country" props);
      h ← z_optional z_string (get "language" props);
      n ← z_optional (z_default z_number 10%Z) (get "maxResults" props);
      m ← z_optional (z_default z_boolean false) (get "includeMetadata" props);
      Some {| query := q; arg_location := l; country := c; language := h;
              maxResults := n; includeMetadata := m |}
  | _ => None
  end.

(** *** The callback *)

Inductive content_block :=
| TextContent (text : string).

Record tool_result := {
  content : list content_block
}.

(** [const searchOptions = { location: location || 'United States',
    gl: country || 'us', hl: language || 'en', num: maxResults || 10 }] *)
Definition searchOptions (a : ToolArgs) : SearchOptions :=
  {| gl := Defined (Js.or_string (country a) "us");
     hl := Defined (Js.or_string (language a) "en");
     location := Defined (Js.or_string (arg_location a) "United States");
     start := Absent;
     num := Defined (Js.or_number (maxResults a) 10);
     tbm := Absent; tbs := Absent; safe := Absent; nfpr := Absent; filter := Absent |}.

(** The two methods of [this.searchApiService] the callback uses. *)
Record service := {
  svc_searchProducts : string -> SearchOptions -> M io json;
  svc_searchProductsWithMetadata : string -> SearchOptions -> M io json
}.

Definition text_result (v : json) : tool_result :=
  {| content := [TextContent (stringify v)] |}.

Definition handler (svc : service) (a : ToolArgs) : M io tool_result :=
  try_catch
    (log (LogInfo "Processing Google Shopping search request") ;;;
     if Js.truthy_opt id (includeMetadata a)
     then
       fullResponse <- svc_searchProductsWithMetadata svc (query a) (searchOptions a) ;;
       ret (text_result fullResponse)
     else
       results <- svc_searchProducts svc (query a) (searchOptions a) ;;
       ret (text_result results))
    (fun error =>
       let errorMessage := error_text error in
       log (LogError "Google Shopping search failed" errorMessage) ;;;
       throw (JsError ("Google Shopping search failed: " +:+ errorMessage))).

(** [new SearchApiService(config.searchApi.apiKey)] *)
Definition SearchApiService (apiKey : string) (axios_get : http_get -> axios_result) : service :=
  {| svc_searchProducts := searchProducts apiKey axios_get;
     svc_searchProductsWithMetadata := searchProductsWithMetadata apiKey axios_get |}.

(** A call of the tool: the arguments are parsed against the schema, and
    the callback runs only on arguments that parse. *)
Inductive call_outcome :=
| InvalidArguments
| Called (result : outcome tool_result).

Definition call_tool (svc : service) (arguments : json) (s : io) : call_outcome * io :=
  match parse_arguments arguments with
  | None => (InvalidArguments, s)
  | Some a => let (r, s') := handler svc a s in (Called r, s')
  end.

End Tool.


(** ** [src/index.ts]: the session gateway ([McpServerApp.run]) *)

Module Gateway.
Import Json Effects.
Local Open Scope js_scope.

(** *** Session ids

    [randomUUID()] returns five groups of lower-case hexadecimal digits,
    of 8, 4, 4, 4 and 12 digits, joined by dashes. *)
Record uuid := {
  time_low : N;
  time_mid : N;
  time_hi_and_version : N;
  clock_seq : N;
  node : N
}.

Fixpoint hex (digits : nat) (n : N) : string :=
  match digits with
  | O => EmptyString
  | S d => hex d (n / 16) +:+ str1 (hex_digit (N.to_nat (n mod 16)))
  end.

Definition uuid_to_string (u : uuid) : string :=
  hex 8 (time_low u) +:+ "-" +:+ hex 4 (time_mid u) +:+ "-"
    +:+ hex 4 (time_hi_and_version u) +:+ "-" +:+ hex 4 (clock_seq u) +:+ "-"
    +:+ hex 12 (node u).

(** *** The [transports] object

    [const transports = {}] is an ordinary object: reading
    [transports[key]] finds the transports stored under their session
    ids (its own properties) and, for a key it does not have, what it
    inherits from [Object.prototype]. *)
Definition chan : Type := nat.   (* one StreamableHTTPServerTransport instance *)

Inductive member :=
| Transport (c : chan)
| Inherited.                     (* a member of Object.prototype *)

Definition object_prototype_names : list string :=
  [ "constructor"; "__proto__"; "hasOwnProperty"; "isPrototypeOf";
    "propertyIsEnumerable"; "toLocaleString"; "toString"; "valueOf";
    "__defineGetter__"; "__defineSetter__"; "__lookupGetter__";
    "__lookupSetter__" ].

Definition inherited (key : string) : bool :=
  existsb (String.eqb key) object_prototype_names.

(** [transports[key]]; [None] is [undefined]. Every member is truthy. *)
Definition read (own : gmap string chan) (key : string) : option member :=
  match own !! key with
  | Some c => Some (Transport c)
  | None => if inherited key then Some Inherited else None
  end.

(** *** Requests, responses and what is observed *)

Record request := {
  session_header : option string;   (* req.headers['mcp-session-id'] *)
  body : json                       (* req.body *)
}.

Inductive payload :=
| JsonBody (j : json)
| TextBody (s : string)
| ChannelBody (s : string).   (* written by a channel *)

Record http_response := {
  code : Z;
  sent : payload
}.

Inductive event :=
| Constructed (c : chan)              (* new StreamableHTTPServerTransport(...) *)
| Connected (c : chan)                (* server.connect(transport) returned *)
| Forwarded (c : chan)                (* transport.handleRequest(...) was called *)
| Confirmed (c : chan) (id : string)  (* the channel called onsessioninitialized(id) *)
| Registered (id : string) (c : chan) (* transports[id] = transport *)
| Closed (c : chan)                   (* the channel called onclose() *)
| Removed (id : string)               (* delete transports[id] *)
| Wrote (r : http_response)           (* something was written to res *)
| Logged (e : log_entry).

(** An event, and the own properties of [transports] right after it. *)
Record entry := {
  what : event;
  registry : gmap string chan
}.

Record state := {
  transports : gmap string chan;   (* own properties of [transports] *)
  sessionIds : gmap chan string;   (* [transport.sessionId], where set *)
  created : nat;                   (* transports constructed so far *)
  headersSent : bool;              (* [res.headersSent] *)
  trace : list entry               (* the journal, oldest first *)
}.

Definition emit (e : event) : M state unit :=
  modify (fun s =>
    {| transports := transports s; sessionIds := sessionIds s; created := created s;
       headersSent := headersSent s;
       trace := trace s ++ [{| what := e; registry := transports s |}] |}).

Definition logger_error (message : string) (error : string) : M state unit :=
  emit (Logged (LogError message error)).

(** [res.status(code).json(j)], [res.status(code).send(text)] and the
    writes of a channel: the headers go out with the first of them. *)
Definition write (r : http_response) : M state unit :=
  modify (fun s =>
    {| transports := transports s; sessionIds := sessionIds s; created := created s;
       headersSent := true; trace := trace s |}) ;;;
  emit (Wrote r).

(** [{ jsonrpc: '2.0', error: { code, message }, id: null }] *)
Definition error_body (c : Z) (message : string) : json :=
  JObj [ ("jsonrpc", JStr "2.0");
         ("error", JObj [("code", JNum c); ("message", JStr message)]);
         ("id", JNull) ].

(** *** The channel

    [StreamableHTTPServerTransport] belongs to the protocol SDK. The
    gateway gives it three callbacks and calls [handleRequest] on it; what
    it does in a call is a script of the callbacks it makes and the
    writes to [res], ending in a return or an exception. *)
Inductive action :=
| InitializeSession (u : uuid)   (* this.sessionId = sessionIdGenerator(), then onsessioninitialized *)
| Respond (r : http_response)
| Close.

Inductive script :=
| Finish
| Raise (e : js_error)
| Do (a : action) (k : script).

(** The SDK as one request meets it. *)
Record sdk := {
  isInitializeRequest : json -> bool;
  constructor_throws : option js_error;   (* new StreamableHTTPServerTransport(...) *)
  connect_throws : option js_error;       (* await server.connect(transport) *)
  handleRequest : script                  (* await transport.handleRequest(...) *)
}.

(** [onsessioninitialized: sessionId => { transports[sessionId] = transport }] *)
Definition onsessioninitialized (transport : chan) (sessionId : string) : M state unit :=
  modify (fun s =>
    {| transports := <[sessionId := transport]> (transports s);
       sessionIds := sessionIds s; created := created s;
       headersSent := headersSent s; trace := trace s |}) ;;;
  emit (Registered sessionId transport).

(** [transport.onclose = () => { if (transport.sessionId) delete
    transports[transport.sessionId] }] *)
Definition onclose (transport : chan) : M state unit :=
  sessionId <- gets (fun s => sessionIds s !! transport) ;;
  match sessionId with
  | Some id =>
      if Js.truthy_string id
      then
        modify (fun s =>
          {| transports := delete id (transports s);
             sessionIds := sessionIds s; created := created s;
             headersSent := headersSent s; trace := trace s |}) ;;;
        emit (Removed id)
      else ret tt
  | None => ret tt
  end.

Definition perform (c : chan) (a : action) : M state unit :=
  match a with
  | InitializeSession u =>
      let id := uuid_to_string u in
      modify (fun s =>
        {| transports := transports s; sessionIds := <[c := id]> (sessionIds s);
           created := created s; headersSent := headersSent s; trace := trace s |}) ;;;
      emit (Confirmed c id) ;;;
      onsessioninitialized c id
  | Respond r => write r
  | Close => emit (Closed c) ;;; onclose c
  end.

Fixpoint run (c : chan) (k : script) : M state unit :=
  match k with
  | Finish => ret tt
  | Raise e => throw e
  | Do a k' => perform c a ;;; run c k'
  end.

(** [await transport.handleRequest(req, res, req.body)] on what
    [transports[sessionId]] gave. *)
Definition forward (env : sdk) (transport : member) : M state unit :=
  match transport with
  | Transport c => emit (Forwarded c) ;;; run c (handleRequest env)
  | Inherited => throw (TypeError "transport.handleRequest is not a function")
  end.

(** *** [app.post('/mcp', ...)] *)

(** [sessionId && transports[sessionId]] *)
Definition known_session (s : state) (sessionId : option string) : option member :=
  match sessionId with
  | Some id => if Js.truthy_string id then read (transports s) id else None
  | None => None
  end.

(** The [else if] branch: a new transport with its callbacks, a new
    server, [server.connect(transport)]. *)
Definition create (env : sdk) : M state chan :=
  match constructor_throws env with
  | Some e => throw e
  | None =>
      c <- gets created ;;
      modify (fun s =>
        {| transports := transports s; sessionIds := sessionIds s; created := S (created s);
           headersSent := headersSent s; trace := trace s |}) ;;;
      emit (Constructed c) ;;;
      match connect_throws env with
      | Some e => throw e
      | None => emit (Connected c) ;;; ret c
      end
  end.

(** The [else] branch. *)
Definition reject : M state unit :=
  write {| code := 400;
           sent := JsonBody (error_body (-32000) "Bad Request: No valid session ID provided") |}.

(** The body of the [try]. *)
Definition post_try (env : sdk) (req : request) : M state unit :=
  let sessionId := session_header req in
  known <- gets (fun s => known_session s sessionId) ;;
  match known with
  | Some transport => forward env transport
  | None =>
      if negb (Js.truthy_opt Js.truthy_string sessionId) && isInitializeRequest env (body req)
      then
        c <- create env ;;
        forward env (Transport c)
      else reject
  end.

(** The body of the [catch]. *)
Definition post_catch (error : js_error) : M state unit :=
  logger_error "Error handling MCP request" (error_text error) ;;;
  sent <- gets headersSent ;;
  if negb sent
  then write {| code := 500;
                sent := JsonBody (error_body (-32603) "Internal server error") |}
  else ret tt.

Definition post_mcp (env : sdk) (req : request) : M state unit :=
  try_catch (post_try env req) post_catch.

(** *** [handleSessionRequest], for [app.get('/mcp')] and
    [app.delete('/mcp')]

    The handler is [async] and has no [try]: an exception in it is the
    rejection of the promise it returns, here the outcome [Threw]. *)
Definition handleSessionRequest (env : sdk) (req : request) : M state unit :=
  let sessionId := session_header req in
  known <- gets (fun s => known_session s sessionId) ;;
  match known with
  | None => write {| code := 400; sent := TextBody "Invalid or missing session ID" |}
  | Some transport => forward env transport
  end.

(** A request arrives with a response object of its own. *)
Definition arrive (s : state) : state :=
  {| transports := transports s; sessionIds := sessionIds s; created := created s;
     headersSent := false; trace := trace s |}.

(** The state of the process when [run] has set up the routes. *)
Definition started : state :=
  {| transports := ∅; sessionIds := ∅; created := 0; headersSent := false; trace := [] |}.

End Gateway.

(** * Properties *)

Import Json Effects SearchApi Tool.
Local Open Scope js_scope.

(** ** Strings *)

(** [needle] occurs in [hay] as a contiguous piece. *)
Definition occurs_in (needle hay : string) : Prop :=
  exists before after, hay = before +:+ needle +:+ after.

Lemma app_cons_s (x : ascii) (a b : string) : String x a +:+ b = String x (a +:+ b).
Proof. reflexivity. Qed.

Lemma app_nil_l_s (a : string) : EmptyString +:+ a = a.
Proof. reflexivity. Qed.

Lemma app_assoc_s (a b c : string) : (a +:+ b) +:+ c = a +:+ (b +:+ c).
Proof.
  induction a as [|x a IH]; [reflexivity|].
  rewrite !app_cons_s. now f_equal.
Qed.

Lemma app_nil_r_s (a : string) : a +:+ EmptyString = a.
Proof.
  induction a as [|x a IH]; [reflexivity|].
  rewrite app_cons_s. now f_equal.
Qed.

Lemma length_app_s (a b : string) :
  String.length (a +:+ b) = String.length a + String.length b.
Proof.
  induction a as [|x a IH]; [reflexivity|].
  rewrite app_cons_s. simpl. now f_equal.
Qed.

Lemma occurs_in_refl (a : string) : occurs_in a a.
Proof. exists EmptyString, EmptyString. now rewrite app_nil_l_s, app_nil_r_s. Qed.

Lemma occurs_in_suffix (n a b : string) : occurs_in n b -> occurs_in n (a +:+ b).
Proof.
  intros (p & q & ->). exists (a +:+ p), q. now rewrite app_assoc_s.
Qed.

Lemma occurs_in_prefix (n a b : string) : occurs_in n a -> occurs_in n (a +:+ b).
Proof.
  intros (p & q & ->). exists p, (q +:+ b). now rewrite !app_assoc_s.
Qed.

Lemma occurs_in_trans (a b c : string) : occurs_in a b -> occurs_in b c -> occurs_in a c.
Proof.
  intros (p & q & ->) (p' & q' & ->).
  exists (p' +:+ p), (q +:+ q'). now rewrite !app_assoc_s.
Qed.

Lemma join_occurs (sep p : string) (parts : list string) :
  In p parts -> occurs_in p (join sep parts).
Proof.
  induction parts as [|x [|y rest] IH]; intros Hin.
  - destruct Hin.
  - destruct Hin as [-> | []]. apply occurs_in_refl.
  - destruct Hin as [-> | Hin].
    + apply occurs_in_prefix, occurs_in_refl.
    + change (join sep (x :: y :: rest)) with (x +:+ sep +:+ join sep (y :: rest)).
      now apply occurs_in_suffix, occurs_in_suffix, IH.
Qed.

Lemma wrap_occurs (o c p : string) (depth : nat) (parts : list string) :
  In p parts -> occurs_in p (wrap o c depth parts).
Proof.
  intros Hin. unfold wrap.
  do 3 apply occurs_in_suffix. apply occurs_in_prefix. now apply join_occurs.
Qed.

(** ** [JSON.stringify] *)

(** How a property whose value is the string [value] is printed. *)
Definition printed_property (key value : string) : string :=
  QuoteJSONString key +:+ ": " +:+ QuoteJSONString value.

Lemma serialize_property_occurs (depth : nat) (props : list (string * json)) (k : string) (v : json) :
  In (k, v) props ->
  occurs_in (QuoteJSONString k +:+ ": " +:+ serialize (S depth) v) (serialize depth (JObj props)).
Proof.
  intros Hin. destruct props as [|kv props]; [destruct Hin|].
  cbn [serialize]. apply wrap_occurs.
  apply (in_map (fun kv => QuoteJSONString (fst kv) +:+ ": " +:+ serialize (S depth) (snd kv))) in Hin.
  exact Hin.
Qed.

Lemma serialize_item_occurs (depth : nat) (items : list json) (x : json) :
  In x items -> occurs_in (serialize (S depth) x) (serialize depth (JArr items)).
Proof.
  intros Hin. destruct items as [|y items]; [destruct Hin|].
  cbn [serialize]. apply wrap_occurs. now apply in_map.
Qed.

(** A string property of an entry of an array is in the printed array. *)
Lemma stringify_entry_property (entries : list json) (props : list (string * json)) (k v : string) :
  In (JObj props) entries -> In (k, JStr v) props ->
  occurs_in (printed_property k v) (stringify (JArr entries)).
Proof.
  intros He Hp. unfold stringify.
  eapply occurs_in_trans; [|apply serialize_item_occurs, He].
  apply (serialize_property_occurs 1 props k (JStr v) Hp).
Qed.

(** ** The google-shopping-search tool *)

Ltac unfold_monad :=
  unfold try_catch, bind, ret, throw, gets, modify in *.

(** The state after one entry has been added to the log. *)
Definition logged (e : log_entry) (s : io) : io :=
  {| calls := calls s; logs := logs s ++ [e] |}.

(** The call the callback makes to the search service for the arguments
    [a]: one of its two branches. *)
Definition service_call (svc : service) (a : ToolArgs) : M io json :=
  if Js.truthy_opt id (includeMetadata a)
  then svc_searchProductsWithMetadata svc (query a) (searchOptions a)
  else svc_searchProducts svc (query a) (searchOptions a).

(** The request [SearchApiService] sends for the arguments [a]. *)
Definition outbound (apiKey : string) (a : ToolArgs) : http_get :=
  get_request apiKey (with_defaults (query a) (searchOptions a)).

Definition no_io : io := {| calls := []; logs := [] |}.

(** The callback runs [service_call] once, after one line of log: when
    the service returns the result goes out as one text block, and when it
    throws one line is logged and a new error is thrown. *)
Lemma handler_unfold (svc : service) (a : ToolArgs) (s : io) :
  handler svc a s =
  match service_call svc a (logged (LogInfo "Processing Google Shopping search request") s) with
  | (Returned v, s') => (Returned (text_result v), s')
  | (Threw e, s') =>
      (Threw (JsError ("Google Shopping search failed: " +:+ error_text e)),
       logged (LogError "Google Shopping search failed" (error_text e)) s')
  end.
Proof.
  unfold handler, service_call, log. unfold_monad. cbn beta iota.
  fold (logged (LogInfo "Processing Google Shopping search request") s).
  destruct (Js.truthy_opt id (includeMetadata a));
    match goal with |- context [?f (query a) (searchOptions a) ?st] =>
      destruct (f (query a) (searchOptions a) st) as [[v|e] s'] end; reflexivity.
Qed.

(** [googleShoppingSSearch] sends exactly one request, whatever comes
    back. *)
Lemma googleShoppingSSearch_calls apiKey axios_get (p : GoogleShoppingSearchParams) (s : io) :
  calls (snd (googleShoppingSSearch apiKey axios_get p s)) = calls s ++ [get_request apiKey p].
Proof.
  unfold googleShoppingSSearch, await_axios_get, read_shopping_results, log.
  unfold_monad. cbn beta iota.
  destruct (axios_get (get_request apiKey p)) as [resp | e]; cbn.
  - destruct (data resp); reflexivity.
  - destruct e as [m | m | m [r|] [|] | m]; try reflexivity;
      unfold response_message; destruct (ToString.to_string _); reflexivity.
Qed.

Lemma service_call_calls apiKey axios_get (a : ToolArgs) (s : io) :
  calls (snd (service_call (SearchApiService apiKey axios_get) a s)) = calls s ++ [outbound apiKey a].
Proof.
  unfold service_call, outbound. cbn [SearchApiService svc_searchProducts svc_searchProductsWithMetadata].
  destruct (Js.truthy_opt id (includeMetadata a)).
  - apply googleShoppingSSearch_calls.
  - unfold searchProducts. unfold_monad.
    pose proof (googleShoppingSSearch_calls apiKey axios_get
                  (with_defaults (query a) (searchOptions a)) s) as H.
    destruct (googleShoppingSSearch apiKey axios_get (with_defaults (query a) (searchOptions a)) s)
      as [[v|e] s']; exact H.
Qed.

(** A call of the tool sends exactly one request to the search API. *)
Lemma handler_calls_once apiKey axios_get (a : ToolArgs) (s : io) :
  calls (snd (handler (SearchApiService apiKey axios_get) a s)) = calls s ++ [outbound apiKey a].
Proof.
  rewrite handler_unfold.
  pose proof (service_call_calls apiKey axios_get a
                (logged (LogInfo "Processing Google Shopping search request") s)) as H.
  destruct (service_call _ a _) as [[v|e] s']; exact H.
Qed.

(** *** A stubbed search API with five products *)

Definition product (n : Z) (name shop cost link : string) : ShoppingResult :=
  {| position := n; product_id := "p" +:+ Js.number_to_string n; title := name;
     product_link := link; seller := shop; offers := "1"; extracted_offers := 1;
     offers_link := link +:+ "/offers"; price := cost; extracted_price := 0;
     installment := None; rating := None; reviews := None; delivery := None;
     thumbnail := link +:+ "/thumb.png" |}.

Definition five_products : list ShoppingResult :=
  [ product 1 "Alpha Buds" "SoundCo" "$19" "https://shop.example/1";
    product 2 "Bravo Cans" "AudioHut" "$29" "https://shop.example/2";
    product 3 "Charlie Pods" "SoundCo" "$39" "https://shop.example/3";
    product 4 "Delta Phones" "HiFi Ltd" "$49" "https://shop.example/4";
    product 5 "Echo Set" "AudioHut" "$59" "https://shop.example/5" ].

Definition five_products_api : http_get -> axios_result :=
  fun _ => Resolved {| status := 200; statusText := "OK";
                       data := JObj [("shopping_results", JArr (map result_json five_products))] |}.

(** [query="wireless headphones"], [maxResults=5], no other options. *)
Definition headphones_call : ToolArgs :=
  {| query := "wireless headphones"; arg_location := None; country := None;
     language := None; maxResults := Some 5%Z; includeMetadata := None |}.

(** *** Formatted lines (C2) *)

(** C2, as stated, fails: on the call [query="wireless headphones"],
    [maxResults=5] against a search API that returns five products, the
    callback returns one text block, and its text is the JSON text of the
    five entries, not the lines [formatShoppingResults] makes of them (the
    callback never calls [formatShoppingResults]). *)
Lemma C2_text_is_not_formatted_lines :
  fst (handler (SearchApiService "key" five_products_api) headphones_call no_io)
    = Returned {| content := [TextContent (stringify (JArr (map result_json five_products)))] |}
  /\ stringify (JArr (map result_json five_products))
       <> formatShoppingResults Js.number_to_string five_products.
Proof.
  split; [reflexivity|].
  intros H. vm_compute in H. discriminate H.
Qed.

(** C2, amended: for every call with [includeMetadata] unset or false
    against a search service that returns the entries [entries], the
    result is a single text block whose text is
    [JSON.stringify(entries, null, 2)]: the text ["[]"] when there is no
    entry, and otherwise the entries printed one after the other between
    brackets; every string property of every entry (its title, seller,
    price and product link among them) is in the text, printed as a
    quoted key, a colon and the quoted value. *)
Theorem C2_text_is_json_of_entries (svc : service) (a : ToolArgs) (s s' : io) (entries : list json) :
  Js.truthy_opt id (includeMetadata a) = false ->
  svc_searchProducts svc (query a) (searchOptions a)
    (logged (LogInfo "Processing Google Shopping search request") s) = (Returned (JArr entries), s') ->
  exists text,
    handler svc a s = (Returned {| content := [TextContent text] |}, s')
    /\ text = stringify (JArr entries)
    /\ (entries = [] -> text = "[]")
    /\ (entries <> [] -> text = wrap "[" "]" 0 (map (serialize 1) entries))
    /\ forall props k v,
         In (JObj props) entries -> In (k, JStr v) props ->
         occurs_in (printed_property k v) text.
Proof.
  intros Hm Hsvc. exists (stringify (JArr entries)).
  split; [|split; [reflexivity|split; [|split]]].
  - rewrite handler_unfold. unfold service_call. rewrite Hm, Hsvc. reflexivity.
  - intros ->. reflexivity.
  - intros Hne. destruct entries as [|e entries]; [congruence | reflexivity].
  - intros props k v. apply stringify_entry_property.
Qed.

Lemma C2_five_products_listed :
  exists text,
    handler (SearchApiService "key" five_products_api) headphones_call no_io
      = (Returned {| content := [TextContent text] |},
         snd (handler (SearchApiService "key" five_products_api) headphones_call no_io))
    /\ text = stringify (JArr (map result_json five_products))
    /\ (map result_json five_products = [] -> text = "[]")
    /\ (map result_json five_products <> [] ->
        text = wrap "[" "]" 0 (map (serialize 1) (map result_json five_products)))
    /\ forall props k v,
         In (JObj props) (map result_json five_products) -> In (k, JStr v) props ->
         occurs_in (printed_property k v) text.
Proof.
  apply (C2_text_is_json_of_entries
           (SearchApiService "key" five_products_api) headphones_call no_io
           (snd (handler (SearchApiService "key" five_products_api) headphones_call no_io))
           (map result_json five_products)).
  - reflexivity.
  - vm_compute. reflexivity.
Defined.

(** *** Failures of the search service (C4) *)

(** C4: when the call to the search service throws [e], the callback
    throws in its turn (the error is not swallowed) an [Error] whose
    message is ["Google Shopping search failed: "] followed by the message
    of [e], which is therefore in it word for word; and it leaves the
    state as that one call left it, with one more line of log: the call
    is not made a second time. With [SearchApiService] for the service,
    one request and no more has gone out to the search API. *)
Theorem C4_failure_is_rethrown_with_its_message (svc : service) (a : ToolArgs) (s s' : io) (e : js_error) :
  service_call svc a (logged (LogInfo "Processing Google Shopping search request") s) = (Threw e, s') ->
  handler svc a s =
    (Threw (JsError ("Google Shopping search failed: " +:+ error_text e)),
     logged (LogError "Google Shopping search failed" (error_text e)) s')
  /\ occurs_in (error_text e) ("Google Shopping search failed: " +:+ error_text e)
  /\ forall apiKey axios_get,
       svc = SearchApiService apiKey axios_get ->
       calls (snd (handler svc a s)) = calls s ++ [outbound apiKey a].
Proof.
  intros Hcall. split; [|split].
  - rewrite handler_unfold, Hcall. reflexivity.
  - apply occurs_in_suffix, occurs_in_refl.
  - intros apiKey axios_get ->. apply handler_calls_once.
Qed.

(** A search API that cannot be reached. *)
Definition unreachable_api : http_get -> axios_result :=
  fun _ => Rejected (AxiosError "connect ECONNREFUSED" None true).

Lemma C4_unreachable_api :
  fst (handler (SearchApiService "key" unreachable_api) headphones_call no_io)
    = Threw (JsError "Google Shopping search failed: SearchAPI request failed: No response received")
  /\ calls (snd (handler (SearchApiService "key" unreachable_api) headphones_call no_io))
     = [outbound "key" headphones_call].
Proof.
  destruct (C4_failure_is_rethrown_with_its_message
              (SearchApiService "key" unreachable_api) headphones_call no_io
              (snd (service_call (SearchApiService "key" unreachable_api) headphones_call
                      (logged (LogInfo "Processing Google Shopping search request") no_io)))
              (JsError "SearchAPI request failed: No response received")
              eq_refl) as (Hthrown & _ & Hcalls).
  split.
  - rewrite Hthrown. reflexivity.
  - apply (Hcalls "key" unreachable_api eq_refl).
Defined.

(** *** Defaults of the outbound request (C8, C10) *)

(** C8, as stated, fails: an explicit [maxResults] of 0 does not override
    the default, the one request sent carries the result count 10. *)
Definition zero_results_call : ToolArgs :=
  {| query := "wireless headphones"; arg_location := None; country := None;
     language := None; maxResults := Some 0%Z; includeMetadata := None |}.

Lemma C8_explicit_zero_is_not_sent :
  maxResults zero_results_call = Some 0%Z
  /\ calls (snd (handler (SearchApiService "key" five_products_api) zero_results_call no_io))
       = [outbound "key" zero_results_call]
  /\ num (rest (search (outbound "key" zero_results_call))) = Some 10%Z
  /\ num (rest (search (outbound "key" zero_results_call))) <> maxResults zero_results_call.
Proof. repeat split; try reflexivity. discriminate. Qed.

(** C8, amended: every call of the tool sends one request; it carries
    the query, and for each of country, language, location and result
    count the default (["us"], ["en"], ["United States"], 10) when the
    caller left the option out, and the caller's value when that value is
    a non-empty string, or a number other than 0. *)
Theorem C8_defaults_and_overrides apiKey axios_get (a : ToolArgs) (s : io) :
  exists r,
    calls (snd (handler (SearchApiService apiKey axios_get) a s)) = calls s ++ [r]
    /\ q (search r) = query a
    /\ (country a = None -> gl (rest (search r)) = Some "us")
    /\ (language a = None -> hl (rest (search r)) = Some "en")
    /\ (arg_location a = None -> location (rest (search r)) = Some "United States")
    /\ (maxResults a = None -> num (rest (search r)) = Some 10%Z)
    /\ (forall c, country a = Some c -> c <> EmptyString -> gl (rest (search r)) = Some c)
    /\ (forall l, language a = Some l -> l <> EmptyString -> hl (rest (search r)) = Some l)
    /\ (forall l, arg_location a = Some l -> l <> EmptyString -> location (rest (search r)) = Some l)
    /\ (forall n, maxResults a = Some n -> n <> 0%Z -> num (rest (search r)) = Some n).
Proof.
  exists (outbound apiKey a). split; [apply handler_calls_once|].
  cbn. repeat split.
  - now intros ->.
  - now intros ->.
  - now intros ->.
  - now intros ->.
  - intros c -> Hc. destruct c; [congruence | reflexivity].
  - intros l -> Hl. destruct l; [congruence | reflexivity].
  - intros l -> Hl. destruct l; [congruence | reflexivity].
  - intros n -> Hn. cbn. unfold Js.truthy_number.
    destruct (Z.eqb_spec n 0); [congruence | reflexivity].
Qed.

(** The call [query="wireless headphones"], [maxResults=5]: the defaults
    for country, language and location, and the count of the caller. *)
Lemma C8_headphones_request :
  calls (snd (handler (SearchApiService "key" five_products_api) headphones_call no_io))
    = [outbound "key" headphones_call]
  /\ q (search (outbound "key" headphones_call)) = "wireless headphones"
  /\ gl (rest (search (outbound "key" headphones_call))) = Some "us"
  /\ hl (rest (search (outbound "key" headphones_call))) = Some "en"
  /\ location (rest (search (outbound "key" headphones_call))) = Some "United States"
  /\ num (rest (search (outbound "key" headphones_call))) = Some 5%Z.
Proof.
  destruct (C8_defaults_and_overrides "key" five_products_api headphones_call no_io)
    as (r & Hcalls & Hq & Hgl & Hhl & Hloc & _ & _ & _ & _ & Hnum).
  assert (r = outbound "key" headphones_call) as ->.
  { pose proof Hcalls as H. rewrite handler_calls_once in H.
    cbn in H. now injection H. }
  split; [exact Hcalls|].
  split; [exact Hq|].
  split; [now apply Hgl|].
  split; [now apply Hhl|].
  split; [now apply Hloc|].
  now apply Hnum.
Defined.

(** C10: every call of the tool sends one request, and in it a
    [maxResults] of 0 has become the result count 10, and an empty
    [location], [country] or [language] has become ["United States"],
    ["us"] or ["en"]. *)
Theorem C10_falsy_options_become_defaults apiKey axios_get (a : ToolArgs) (s : io) :
  exists r,
    calls (snd (handler (SearchApiService apiKey axios_get) a s)) = calls s ++ [r]
    /\ (maxResults a = Some 0%Z -> num (rest (search r)) = Some 10%Z)
    /\ (arg_location a = Some EmptyString -> location (rest (search r)) = Some "United States")
    /\ (country a = Some EmptyString -> gl (rest (search r)) = Some "us")
    /\ (language a = Some EmptyString -> hl (rest (search r)) = Some "en").
Proof.
  exists (outbound apiKey a). split; [apply handler_calls_once|].
  cbn. repeat split; now intros ->.
Qed.

(** A call in which every option is given and falsy. *)
Definition falsy_options_call : ToolArgs :=
  {| query := "wireless headphones"; arg_location := Some EmptyString;
     country := Some EmptyString; language := Some EmptyString;
     maxResults := Some 0%Z; includeMetadata := Some false |}.

Lemma C10_all_falsy :
  calls (snd (handler (SearchApiService "key" five_products_api) falsy_options_call no_io))
    = [outbound "key" falsy_options_call]
  /\ num (rest (search (outbound "key" falsy_options_call))) = Some 10%Z
  /\ location (rest (search (outbound "key" falsy_options_call))) = Some "United States"
  /\ gl (rest (search (outbound "key" falsy_options_call))) = Some "us"
  /\ hl (rest (search (outbound "key" falsy_options_call))) = Some "en".
Proof.
  destruct (C10_falsy_options_become_defaults "key" five_products_api falsy_options_call no_io)
    as (r & Hcalls & Hnum & Hloc & Hgl & Hhl).
  assert (r = outbound "key" falsy_options_call) as ->.
  { pose proof Hcalls as H. rewrite handler_calls_once in H.
    cbn in H. now injection H. }
  split; [exact Hcalls|].
  split; [now apply Hnum|].
  split; [now apply Hloc|].
  split; [now apply Hgl | now apply Hhl].
Defined.

(** *** Validation of the arguments (C9) *)

(** C9, as stated, fails: the schema of [query] is [z.string()], which
    the empty string satisfies; a call with the empty query is not
    rejected, the callback runs and a request whose query is empty goes
    out to the search API. *)
Definition empty_query_call : json := JObj [("query", JStr EmptyString)].

Lemma C9_empty_query_is_accepted :
  parse_arguments empty_query_call
    = Some {| query := EmptyString; arg_location := None; country := None;
              language := None; maxResults := None; includeMetadata := None |}
  /\ fst (call_tool (SearchApiService "key" five_products_api) empty_query_call no_io)
       <> InvalidArguments
  /\ exists r,
       calls (snd (call_tool (SearchApiService "key" five_products_api) empty_query_call no_io)) = [r]
       /\ q (search r) = EmptyString.
Proof.
  split; [reflexivity|]. split.
  - vm_compute. discriminate.
  - eexists. split; reflexivity.
Qed.

(** C9, amended: validation requires [query] to be present and to be a
    string. A call whose arguments are not an object, or in which [query]
    is absent or is not a string, is rejected and nothing else happens: no
    request is sent, nothing is logged. Arguments that pass have a string
    for [query], and every string passes, the empty one included. *)
Theorem C9_query_must_be_a_string (svc : service) (arguments : json) (s : io) :
  ((forall props text, arguments = JObj props -> get "query" props <> Some (JStr text)) ->
   call_tool svc arguments s = (InvalidArguments, s))
  /\ (forall a, parse_arguments arguments = Some a ->
      exists props, arguments = JObj props /\ get "query" props = Some (JStr (query a)))
  /\ (forall text,
      parse_arguments (JObj [("query", JStr text)])
        = Some {| query := text; arg_location := None; country := None;
                  language := None; maxResults := None; includeMetadata := None |}).
Proof.
  split; [|split].
  - intros Hq. unfold call_tool.
    destruct arguments as [| | | | |props]; try reflexivity.
    unfold parse_arguments.
    destruct (get "query" props) as [[| | |text| |]|] eqn:E; try reflexivity.
    now destruct (Hq props text eq_refl).
  - intros a Ha. destruct arguments as [| | | | |props]; try discriminate Ha.
    exists props. split; [reflexivity|].
    unfold parse_arguments in Ha.
    destruct (get "query" props) as [[| | |text| |]|] eqn:E; try discriminate Ha.
    cbn in Ha.
    repeat match type of Ha with
           | context [@mbind option _ _ _ _ ?x] => destruct x; cbn in Ha; try discriminate Ha
           end.
    injection Ha as <-. reflexivity.
  - intros text. reflexivity.
Qed.

(** A call without [query]. *)
Lemma C9_missing_query_is_rejected :
  call_tool (SearchApiService "key" five_products_api) (JObj [("maxResults", JNum 5)]) no_io
    = (InvalidArguments, no_io).
Proof.
  apply (C9_query_must_be_a_string (SearchApiService "key" five_products_api)
           (JObj [("maxResults", JNum 5)]) no_io).
  intros props text [= <-]. discriminate.
Defined.

(** ** The session gateway *)

Import Gateway.

(** The state after [emit e], and after [write r]. *)
Definition noted (e : event) (s : state) : state :=
  {| transports := transports s; sessionIds := sessionIds s; created := created s;
     headersSent := headersSent s;
     trace := trace s ++ [{| what := e; registry := transports s |}] |}.

Definition answered (r : http_response) (s : state) : state :=
  {| transports := transports s; sessionIds := sessionIds s; created := created s;
     headersSent := true;
     trace := trace s ++ [{| what := Wrote r; registry := transports s |}] |}.

Lemma emit_unfold (e : event) (s : state) : emit e s = (Returned tt, noted e s).
Proof. reflexivity. Qed.

Lemma write_unfold (r : http_response) (s : state) : write r s = (Returned tt, answered r s).
Proof. reflexivity. Qed.

(** *** Journals

    What an event does to the registry, which events may follow which,
    and the journals in which every entry carries the registry its event
    leaves: the registry changes only where an id is registered or
    removed, and an id is registered only directly after the channel
    confirmed that id. *)
Definition after_event (own : gmap string chan) (e : event) : gmap string chan :=
  match e with
  | Registered id c => <[id := c]> own
  | Removed id => delete id own
  | _ => own
  end.

Definition may_follow (previous : option event) (e : event) : Prop :=
  match e with
  | Registered id c => previous = Some (Confirmed c id)
  | _ => True
  end.

Fixpoint orderly (own : gmap string chan) (previous : option event) (entries : list entry) : Prop :=
  match entries with
  | [] => True
  | x :: rest =>
      may_follow previous (what x)
      /\ registry x = after_event own (what x)
      /\ orderly (registry x) (Some (what x)) rest
  end.

Fixpoint registry_after (own : gmap string chan) (entries : list entry) : gmap string chan :=
  match entries with
  | [] => own
  | x :: rest => registry_after (registry x) rest
  end.

Fixpoint event_before (previous : option event) (entries : list entry) : option event :=
  match entries with
  | [] => previous
  | x :: rest => event_before (Some (what x)) rest
  end.

Lemma orderly_app own previous (xs ys : list entry) :
  orderly own previous xs ->
  orderly (registry_after own xs) (event_before previous xs) ys ->
  orderly own previous (xs ++ ys).
Proof.
  revert own previous. induction xs as [|x xs IH]; intros own previous Hx Hy.
  - exact Hy.
  - destruct Hx as (Hf & Hr & Hx). cbn. repeat split; try assumption.
    apply IH; assumption.
Qed.

Lemma registry_after_app own (xs ys : list entry) :
  registry_after own (xs ++ ys) = registry_after (registry_after own xs) ys.
Proof. revert own. induction xs as [|x xs IH]; intros own; [reflexivity | apply IH]. Qed.

(** An entry that registers an id shows the id in the registry. *)
Lemma orderly_registered own previous (entries : list entry) (x : entry) id c :
  orderly own previous entries -> In x entries -> what x = Registered id c ->
  registry x !! id = Some c.
Proof.
  revert own previous. induction entries as [|y rest IH]; intros own previous Ho Hin Hw.
  - destruct Hin.
  - destruct Ho as (_ & Hr & Ho). destruct Hin as [-> | Hin].
    + rewrite Hr, Hw. cbn. apply lookup_insert_eq.
    + eapply IH; eassumption.
Qed.

(** An entry that does not register or remove an id leaves the registry
    as the entry before it left it. *)
Lemma orderly_unchanged own previous (before after : list entry) (x : entry) :
  orderly own previous (before ++ x :: after) ->
  (forall id c, what x <> Registered id c) -> (forall id, what x <> Removed id) ->
  registry x = registry_after own before.
Proof.
  revert own previous. induction before as [|y before IH]; intros own previous Ho Hr Hd.
  - destruct Ho as (_ & -> & _). destruct (what x); try reflexivity.
    + now destruct (Hr id c).
    + now destruct (Hd id).
  - destruct Ho as (_ & _ & Ho). cbn. eapply IH; eassumption.
Qed.

(** *** What a channel can do to the journal *)

Lemma perform_journal (c : chan) (a : action) (s : state) (previous : option event) :
  exists entries,
    fst (perform c a s) = Returned tt
    /\ trace (snd (perform c a s)) = trace s ++ entries
    /\ orderly (transports s) previous entries
    /\ transports (snd (perform c a s)) = registry_after (transports s) entries
    /\ created (snd (perform c a s)) = created s.
Proof.
  destruct a as [u | r | ].
  - exists [ {| what := Confirmed c (uuid_to_string u); registry := transports s |};
             {| what := Registered (uuid_to_string u) c;
                registry := <[uuid_to_string u := c]> (transports s) |} ].
    cbn. rewrite <- app_assoc. repeat split; reflexivity.
  - exists [ {| what := Wrote r; registry := transports s |} ].
    cbn. repeat split; reflexivity.
  - unfold perform, onclose. unfold_monad. cbn.
    destruct (sessionIds s !! c) as [id|]; [destruct (Js.truthy_string id)|].
    + exists [ {| what := Closed c; registry := transports s |};
               {| what := Removed id; registry := delete id (transports s) |} ].
      cbn. rewrite <- app_assoc. repeat split; reflexivity.
    + exists [ {| what := Closed c; registry := transports s |} ].
      cbn. repeat split; reflexivity.
    + exists [ {| what := Closed c; registry := transports s |} ].
      cbn. repeat split; reflexivity.
Qed.

Lemma run_journal (c : chan) (k : script) (s : state) (previous : option event) :
  exists entries,
    trace (snd (run c k s)) = trace s ++ entries
    /\ orderly (transports s) previous entries
    /\ transports (snd (run c k s)) = registry_after (transports s) entries
    /\ created (snd (run c k s)) = created s.
Proof.
  revert s previous. induction k as [| e | a k IH]; intros s previous.
  - exists []. cbn. rewrite app_nil_r. repeat split; reflexivity.
  - exists []. cbn. rewrite app_nil_r. repeat split; reflexivity.
  - destruct (perform_journal c a s previous) as (xs & Hret & Htr & Hord & Hreg & Hcr).
    cbn [run]. unfold bind.
    destruct (perform c a s) as [[[]|e] s1] eqn:Hp; cbn in Hret, Htr, Hreg, Hcr; [|discriminate].
    destruct (IH s1 (event_before previous xs)) as (ys & Htr' & Hord' & Hreg' & Hcr').
    exists (xs ++ ys). repeat split.
    + rewrite Htr', Htr. now rewrite app_assoc.
    + apply orderly_app; [exact Hord|]. rewrite <- Hreg. exact Hord'.
    + rewrite Hreg', Hreg. now rewrite registry_after_app.
    + congruence.
Qed.

(** *** Session ids are not names of [Object.prototype] *)

Lemma hex_length (digits : nat) (n : N) : String.length (hex digits n) = digits.
Proof.
  revert n. induction digits as [|d IH]; intros n; [reflexivity|].
  cbn [hex]. rewrite length_app_s, IH. cbn. lia.
Qed.

Lemma uuid_length (u : uuid) : String.length (uuid_to_string u) = 36.
Proof.
  unfold uuid_to_string. rewrite !length_app_s, !hex_length. reflexivity.
Qed.

Lemma uuid_truthy (u : uuid) : Js.truthy_string (uuid_to_string u) = true.
Proof.
  pose proof (uuid_length u) as H.
  destruct (uuid_to_string u); [discriminate H | reflexivity].
Qed.

Lemma inherited_length (key : string) : inherited key = true -> String.length key < 36.
Proof.
  unfold inherited. rewrite existsb_exists. intros (name & Hin & Heq).
  apply String.eqb_eq in Heq. subst key.
  cbn in Hin. repeat (destruct Hin as [<- | Hin]; [cbn; lia|]). destruct Hin.
Qed.

Lemma uuid_not_inherited (u : uuid) : inherited (uuid_to_string u) = false.
Proof.
  destruct (inherited (uuid_to_string u)) eqn:E; [|reflexivity].
  apply inherited_length in E. rewrite uuid_length in E. lia.
Qed.

(** A request that carries a registered session id finds its channel. *)
Lemma known_session_registered (s : state) (u : uuid) (c : chan) :
  transports s !! uuid_to_string u = Some c ->
  known_session s (Some (uuid_to_string u)) = Some (Transport c).
Proof.
  intros H. unfold known_session, read. now rewrite uuid_truthy, H.
Qed.

(** *** What a create route and the catch leave *)

(** A script in which the channel only writes to the response. *)
Fixpoint quiet (k : script) : bool :=
  match k with
  | Finish | Raise _ => true
  | Do (Respond _) k' => quiet k'
  | Do _ _ => false
  end.

Lemma run_quiet (c : chan) (k : script) (s : state) :
  quiet k = true ->
  transports (snd (run c k s)) = transports s
  /\ sessionIds (snd (run c k s)) = sessionIds s
  /\ created (snd (run c k s)) = created s.
Proof.
  revert s. induction k as [| e | a k IH]; intros s Hq; [now cbn | now cbn |].
  destruct a as [u | r |]; try discriminate Hq.
  cbn [run perform]. unfold bind. rewrite write_unfold.
  destruct (IH (answered r s) Hq) as (Ht & Hs & Hc).
  rewrite Ht, Hs, Hc. now cbn.
Qed.

Lemma post_catch_state (e : js_error) (s : state) :
  transports (snd (post_catch e s)) = transports s
  /\ created (snd (post_catch e s)) = created s
  /\ sessionIds (snd (post_catch e s)) = sessionIds s.
Proof.
  unfold post_catch, logger_error, write, emit. unfold_monad. cbn.
  destruct (headersSent s); cbn; repeat split.
Qed.

Lemma post_try_unfold (env : sdk) (req : request) (s : state) :
  post_try env req s =
  match known_session s (session_header req) with
  | Some transport => forward env transport s
  | None =>
      if negb (Js.truthy_opt Js.truthy_string (session_header req))
         && isInitializeRequest env (body req)
      then (c <- create env ;; forward env (Transport c))%js s
      else reject s
  end.
Proof.
  unfold post_try. unfold bind at 1. unfold gets. cbn beta iota.
  destruct (known_session s (session_header req)); [reflexivity|].
  destruct (negb _ && isInitializeRequest env (body req)); reflexivity.
Qed.

(** The state a create route leaves when the channel initializes its
    session and then only answers. *)
Lemma created_session_state (env : sdk) (req : request) (s : state) (u : uuid) (k : script) :
  Js.truthy_opt Js.truthy_string (session_header req) = false ->
  isInitializeRequest env (body req) = true ->
  constructor_throws env = None ->
  connect_throws env = None ->
  handleRequest env = Do (InitializeSession u) k ->
  quiet k = true ->
  transports (snd (post_mcp env req s)) = <[uuid_to_string u := created s]> (transports s)
  /\ sessionIds (snd (post_mcp env req s)) = <[created s := uuid_to_string u]> (sessionIds s)
  /\ created (snd (post_mcp env req s)) = S (created s).
Proof.
  intros Hh Hinit Hctor Hconn Hk Hq.
  assert (known_session s (session_header req) = None) as Hknown.
  { unfold known_session. destruct (session_header req) as [id|]; [|reflexivity].
    cbn in Hh. now rewrite Hh. }
  assert (transports (snd (post_try env req s)) = <[uuid_to_string u := created s]> (transports s)
          /\ sessionIds (snd (post_try env req s)) = <[created s := uuid_to_string u]> (sessionIds s)
          /\ created (snd (post_try env req s)) = S (created s)) as Htry.
  { rewrite post_try_unfold, Hknown, Hh, Hinit. cbn [negb andb].
    unfold bind at 1. unfold create. rewrite Hctor, Hconn.
    unfold_monad. unfold emit. unfold_monad. cbn.
    rewrite Hk. cbn [run perform]. unfold onsessioninitialized, emit. unfold_monad. cbn.
    match goal with
    | |- context [run ?c k ?s1] => destruct (run_quiet c k s1 Hq) as (Ht & Hs & Hc)
    end.
    rewrite Ht, Hs, Hc. now cbn. }
  unfold post_mcp, try_catch.
  destruct (post_try env req s) as [[[]|e] s1]; cbn in Htry; [exact Htry|].
  destruct (post_catch_state e s1) as (-> & -> & ->). exact Htry.
Qed.

(** *** An SDK for the examples

    [isInitializeRequest] of the SDK parses the body with the schema of
    the initialize request: the method is "initialize", and [params]
    holds the protocol version, the capabilities of the client and its
    name and version.  [is_initialize] accepts a body only where that
    schema does: of the bodies of that shape it takes those whose
    [params] and [clientInfo] have no other property and whose
    capabilities are the empty object.  The channel of the examples
    initializes its session and answers. *)
Definition string_at (k : string) (props : list (string * json)) : bool :=
  match get k props with
  | Some (JStr _) => true
  | _ => false
  end.

Definition only_keys (names : list string) (props : list (string * json)) : bool :=
  forallb (fun kv => existsb (String.eqb (fst kv)) names) props.

Definition is_initialize (j : json) : bool :=
  match j with
  | JObj props =>
      match get "method" props, get "params" props with
      | Some (JStr m), Some (JObj params) =>
          String.eqb m "initialize"
          && only_keys ["protocolVersion"; "capabilities"; "clientInfo"] params
          && string_at "protocolVersion" params
          && match get "capabilities" params with
             | Some (JObj []) => true
             | _ => false
             end
          && match get "clientInfo" params with
             | Some (JObj info) =>
                 only_keys ["name"; "version"] info
                 && string_at "name" info && string_at "version" info
             | _ => false
             end
      | _, _ => false
      end
  | _ => false
  end.

Definition first_uuid : uuid :=
  {| time_low := 305419896; time_mid := 43981; time_hi_and_version := 16675;
     clock_seq := 32773; node := 1 |}.

Definition first_id : string := "12345678-abcd-4123-8005-000000000001".

Definition accepted : http_response := {| code := 200; sent := ChannelBody "event: message" |}.

Definition initializing_sdk : sdk :=
  {| isInitializeRequest := is_initialize;
     constructor_throws := None;
     connect_throws := None;
     handleRequest := Do (InitializeSession first_uuid) (Do (Respond accepted) Finish) |}.

(** A complete initialize request, and a request for a tool. *)
Definition initialize_body : json :=
  JObj [ ("jsonrpc", JStr "2.0"); ("id", JNum 1); ("method", JStr "initialize");
         ("params", JObj [ ("protocolVersion", JStr "2025-03-26");
                           ("capabilities", JObj []);
                           ("clientInfo", JObj [ ("name", JStr "example-client");
                                                 ("version", JStr "1.0.0") ]) ]) ].

Definition tools_call_body : json :=
  JObj [("jsonrpc", JStr "2.0"); ("id", JNum 2); ("method", JStr "tools/call")].

(** The process after one client has initialized a session, when the
    next request arrives. *)
Definition one_session : state :=
  arrive (snd (post_mcp initializing_sdk
                 {| session_header := None; body := initialize_body |} started)).

Example first_id_is_first_uuid : uuid_to_string first_uuid = first_id.
Proof. reflexivity. Qed.

Example one_session_registry : transports one_session !! first_id = Some 0.
Proof. reflexivity. Qed.

(** *** The three routes of POST /mcp (C1) *)

(** The route of a request, with an empty header counted as no header. *)
Inductive route :=
| Resume (c : chan)
| Create
| Reject.

Definition classify (env : sdk) (req : request) (s : state) : route :=
  match session_header req with
  | Some id =>
      if Js.truthy_string id
      then match transports s !! id with
           | Some c => Resume c
           | None => Reject
           end
      else if isInitializeRequest env (body req) then Create else Reject
  | None => if isInitializeRequest env (body req) then Create else Reject
  end.

Definition no_valid_session : http_response :=
  {| code := 400;
     sent := JsonBody (JObj [ ("jsonrpc", JStr "2.0");
                              ("error", JObj [ ("code", JNum (-32000));
                                               ("message", JStr "Bad Request: No valid session ID provided") ]);
                              ("id", JNull) ]) |}.

(** C1, as stated, fails: a request whose session-id header is present
    and empty, and whose body is an initialization message, is not
    answered with the error -32000. No session is registered under the
    empty id, yet a new channel is constructed, connected and given the
    body, and the only answer is the one of that channel. *)
Lemma C1_empty_header_creates_a_session :
  transports started !! EmptyString = None
  /\ is_initialize initialize_body = true
  /\ map what (trace (snd (post_mcp initializing_sdk
                              {| session_header := Some EmptyString; body := initialize_body |}
                              started)))
     = [ Constructed 0; Connected 0; Forwarded 0; Confirmed 0 first_id;
         Registered first_id 0; Wrote accepted ]
  /\ map what (trace (answered no_valid_session started)) = [ Wrote no_valid_session ].
Proof. repeat split. Qed.

(** C1, amended: every POST /mcp whose session-id header is not a name
    that objects inherit takes exactly one of three routes. If the header
    is present and not empty and a session is registered under it, the
    body is forwarded to the channel of that session. Else, if the header
    is absent or empty and the body is an initialization message, a new
    channel is created and the body is forwarded to it. Else the answer is
    status 400 with the JSON-RPC error of code -32000, message "Bad
    Request: No valid session ID provided" and id null, and nothing else
    happens: no channel is constructed or called, the registry is as it
    was. (On the first two routes an exception is handled as C7 says.) *)
Theorem C1_three_routes (env : sdk) (req : request) (s : state) :
  (forall id, session_header req = Some id -> inherited id = false) ->
  post_mcp env req s =
    match classify env req s with
    | Resume c => try_catch (forward env (Transport c)) post_catch s
    | Create => try_catch (c <- create env ;; forward env (Transport c)) post_catch s
    | Reject => (Returned tt, answered no_valid_session s)
    end.
Proof.
  intros Hname.
  unfold post_mcp, post_try, classify, known_session, read, reject.
  unfold try_catch at 1. unfold bind at 1. unfold gets. cbn beta iota.
  destruct (session_header req) as [id|] eqn:Hh; cbn [Js.truthy_opt negb andb].
  - destruct (Js.truthy_string id) eqn:Ht; cbn [negb andb].
    + destruct (transports s !! id) as [c|] eqn:Hl; [reflexivity|].
      rewrite (Hname id eq_refl). reflexivity.
    + destruct (isInitializeRequest env (body req)); reflexivity.
  - destruct (isInitializeRequest env (body req)); reflexivity.
Qed.

Lemma C1_unknown_session_is_rejected :
  post_mcp initializing_sdk
    {| session_header := Some "00000000-0000-4000-8000-000000000000"; body := tools_call_body |}
    one_session
  = (Returned tt, answered no_valid_session one_session).
Proof.
  apply (C1_three_routes initializing_sdk
           {| session_header := Some "00000000-0000-4000-8000-000000000000";
              body := tools_call_body |} one_session).
  intros id [= <-]. reflexivity.
Defined.

(** A body that names the method and has no [params] is no
    initialization message: without a session id it is refused. *)
Example C1_incomplete_initialize_is_rejected :
  let bare := JObj [("jsonrpc", JStr "2.0"); ("id", JNum 1); ("method", JStr "initialize")] in
  is_initialize bare = false
  /\ post_mcp initializing_sdk {| session_header := None; body := bare |} started
     = (Returned tt, answered no_valid_session started).
Proof. split; reflexivity. Qed.

Example C1_known_session_is_resumed :
  classify initializing_sdk {| session_header := Some first_id; body := tools_call_body |}
    one_session = Resume 0.
Proof. reflexivity. Qed.

(** *** Registration on the create route (C3) *)

(** C3, as stated, fails: the body is not forwarded after the
    registration but before it. On the create route the gateway calls
    [handleRequest] on the new channel while the registry is empty; the
    channel confirms its id, and the gateway registers it, during that
    call. *)
Lemma C3_body_is_forwarded_before_registration :
  map what (trace (snd (post_mcp initializing_sdk
                          {| session_header := None; body := initialize_body |} started)))
    = [ Constructed 0; Connected 0; Forwarded 0; Confirmed 0 first_id;
        Registered first_id 0; Wrote accepted ]
  /\ trace (snd (post_mcp initializing_sdk
                   {| session_header := None; body := initialize_body |} started)) !! 2
     = Some {| what := Forwarded 0; registry := ∅ |}
  /\ (∅ : gmap string chan) !! first_id = None.
Proof. repeat split. Qed.

(** C3, amended: on every create route (the channel constructed and
    connected) the gateway first hands the body to the new channel, the
    registry being as it was when the request came; from there on the
    registry changes only where an id is registered or removed, and an id
    is registered only directly after the channel has confirmed that very
    id. When the channel starts by initializing its session, the order is:
    body forwarded, id confirmed (the registry still unchanged), id
    registered under the new channel; and when the channel then only
    answers, the registry the request leaves maps the id to that channel,
    and the body of the next POST that carries the id is forwarded to
    it. *)
Theorem C3_registered_at_confirmation (env : sdk) (req : request) (s : state) :
  Js.truthy_opt Js.truthy_string (session_header req) = false ->
  isInitializeRequest env (body req) = true ->
  constructor_throws env = None ->
  connect_throws env = None ->
  exists rest,
    trace (snd (post_mcp env req s))
      = trace s ++ [ {| what := Constructed (created s); registry := transports s |};
                     {| what := Connected (created s); registry := transports s |};
                     {| what := Forwarded (created s); registry := transports s |} ] ++ rest
    /\ orderly (transports s) (Some (Forwarded (created s))) rest
    /\ transports (snd (post_mcp env req s)) = registry_after (transports s) rest
    /\ forall u k, handleRequest env = Do (InitializeSession u) k ->
         exists rest',
           rest = {| what := Confirmed (created s) (uuid_to_string u);
                     registry := transports s |}
                  :: {| what := Registered (uuid_to_string u) (created s);
                        registry := <[uuid_to_string u := created s]> (transports s) |}
                  :: rest'
           /\ (quiet k = true ->
               let s1 := arrive (snd (post_mcp env req s)) in
               transports s1 !! uuid_to_string u = Some (created s)
               /\ forall env' req',
                    session_header req' = Some (uuid_to_string u) ->
                    post_try env' req' s1 = forward env' (Transport (created s)) s1).
Proof.
  intros Hh Hinit Hctor Hconn.
  assert (known_session s (session_header req) = None) as Hknown.
  { unfold known_session. destruct (session_header req) as [id|]; [|reflexivity].
    cbn in Hh. now rewrite Hh. }
  set (s0 := {| transports := transports s; sessionIds := sessionIds s;
                created := S (created s); headersSent := headersSent s;
                trace := trace s ++ [ {| what := Constructed (created s); registry := transports s |};
                                      {| what := Connected (created s); registry := transports s |};
                                      {| what := Forwarded (created s); registry := transports s |} ] |}).
  assert (post_try env req s = run (created s) (handleRequest env) s0) as Htry.
  { unfold post_try, create. unfold bind at 1. unfold gets at 1. cbn beta iota.
    rewrite Hknown, Hh, Hinit, Hctor, Hconn. cbn [negb andb].
    unfold forward. unfold_monad. unfold emit. unfold_monad. cbn.
    subst s0. cbn. rewrite <- !app_assoc. reflexivity. }
  destruct (run_journal (created s) (handleRequest env) s0 (Some (Forwarded (created s))))
    as (xs & Htr & Hord & Hreg & _).
  assert (exists tail,
             trace (snd (post_mcp env req s)) = trace s0 ++ xs ++ tail
             /\ transports (snd (post_mcp env req s)) = registry_after (transports s) xs
             /\ Forall (fun x => ((exists l, what x = Logged l) \/ (exists r, what x = Wrote r))
                                 /\ registry x = registry_after (transports s) xs) tail)
    as (tail & Htrace & Htransports & Htail).
  { unfold post_mcp, try_catch. rewrite Htry.
    destruct (run (created s) (handleRequest env) s0) as [[[]|e] s1]; cbn in Htr, Hreg.
    - exists []. cbn. rewrite app_nil_r. repeat split; [exact Htr | exact Hreg | constructor].
    - unfold post_catch, logger_error, write, emit. unfold_monad. cbn.
      destruct (headersSent s1); cbn.
      + exists [ {| what := Logged (LogError "Error handling MCP request" (error_text e));
                    registry := transports s1 |} ].
        rewrite Htr, <- app_assoc. repeat split; [exact Hreg|].
        constructor; [|constructor]. split; [left; eauto | exact Hreg].
      + exists [ {| what := Logged (LogError "Error handling MCP request" (error_text e));
                    registry := transports s1 |};
                 {| what := Wrote {| code := 500;
                                     sent := JsonBody (error_body (-32603) "Internal server error") |};
                    registry := transports s1 |} ].
        rewrite Htr, <- !app_assoc. repeat split; [exact Hreg|].
        constructor; [|constructor; [|constructor]].
        * split; [left; eauto | exact Hreg].
        * split; [right; eauto | exact Hreg]. }
  exists (xs ++ tail). split; [|split; [|split]].
  - rewrite Htrace. subst s0. cbn [trace]. now rewrite <- !app_assoc.
  - apply orderly_app; [exact Hord|].
    clear - Htail. revert Htail.
    generalize (event_before (Some (Forwarded (created s))) xs) as previous.
    generalize (registry_after (transports s) xs) as own.
    induction tail as [|x tail IH]; intros own previous Hall; [exact I|].
    apply Forall_cons_iff in Hall as [[Hw Hr] Hrest].
    cbn. split; [|split].
    + destruct Hw as [(l & ->) | (r & ->)]; exact I.
    + rewrite Hr. destruct Hw as [(l & ->) | (r & ->)]; reflexivity.
    + rewrite Hr. apply IH. exact Hrest.
  - rewrite Htransports, registry_after_app.
    clear - Htail. induction tail as [|x tail IH]; [reflexivity|].
    apply Forall_cons_iff in Htail as [[_ Hr] Hrest]. cbn. rewrite Hr.
    apply IH. exact Hrest.
  - intros u k Hk.
    assert (exists ys, xs = {| what := Confirmed (created s) (uuid_to_string u);
                               registry := transports s |}
                            :: {| what := Registered (uuid_to_string u) (created s);
                                  registry := <[uuid_to_string u := created s]> (transports s) |}
                            :: ys) as (ys & ->).
    { rewrite Hk in Htr. cbn [run perform] in Htr.
      unfold onsessioninitialized, emit in Htr. unfold_monad. cbn in Htr.
      match type of Htr with
      | trace (snd (run _ _ ?s1)) = _ =>
          destruct (run_journal (created s) k s1 None) as (ys & Htr1 & _)
      end.
      rewrite Htr1 in Htr. cbn [trace] in Htr.
      rewrite <- !app_assoc in Htr. exists ys.
      do 2 apply app_inv_head in Htr. now rewrite <- Htr. }
    exists (ys ++ tail). split; [reflexivity|].
    intros Hq s1.
    destruct (created_session_state env req s u k Hh Hinit Hctor Hconn Hk Hq) as (Ht & _ & _).
    assert (transports s1 !! uuid_to_string u = Some (created s)) as Hl.
    { subst s1. cbn [arrive transports]. rewrite Ht. apply lookup_insert_eq. }
    split; [exact Hl|].
    intros env' req' Hh'.
    now rewrite post_try_unfold, Hh', (known_session_registered s1 u (created s) Hl).
Qed.

Definition first_request : request :=
  {| session_header := None; body := initialize_body |}.

Lemma C3_first_session :
  exists rest,
    trace (snd (post_mcp initializing_sdk first_request started))
      = trace started
        ++ [ {| what := Constructed (created started); registry := transports started |};
             {| what := Connected (created started); registry := transports started |};
             {| what := Forwarded (created started); registry := transports started |} ] ++ rest
    /\ orderly (transports started) (Some (Forwarded (created started))) rest
    /\ transports (snd (post_mcp initializing_sdk first_request started))
       = registry_after (transports started) rest
    /\ forall u k, handleRequest initializing_sdk = Do (InitializeSession u) k ->
         exists rest',
           rest = {| what := Confirmed (created started) (uuid_to_string u);
                     registry := transports started |}
                  :: {| what := Registered (uuid_to_string u) (created started);
                        registry := <[uuid_to_string u := created started]> (transports started) |}
                  :: rest'
           /\ (quiet k = true ->
               let s1 := arrive (snd (post_mcp initializing_sdk first_request started)) in
               transports s1 !! uuid_to_string u = Some (created started)
               /\ forall env' req',
                    session_header req' = Some (uuid_to_string u) ->
                    post_try env' req' s1 = forward env' (Transport (created started)) s1).
Proof.
  apply (C3_registered_at_confirmation initializing_sdk first_request started); reflexivity.
Defined.

(** *** Removal from the registry (C5) *)

(** [delete transports[id]] on a registry. *)
Lemma delete_absent (own : gmap string chan) (id : string) :
  own !! id = None -> delete id own = own.
Proof. apply delete_id. Qed.

Lemma delete_twice (own : gmap string chan) (id : string) :
  delete id (delete id own) = delete id own.
Proof. apply delete_absent, lookup_delete_eq. Qed.

Lemma onclose_unfold (c : chan) (s : state) :
  onclose c s =
  match sessionIds s !! c with
  | Some id =>
      if Js.truthy_string id
      then (Returned tt,
            {| transports := delete id (transports s); sessionIds := sessionIds s;
               created := created s; headersSent := headersSent s;
               trace := trace s ++ [{| what := Removed id; registry := delete id (transports s) |}] |})
      else (Returned tt, s)
  | None => (Returned tt, s)
  end.
Proof.
  unfold onclose. unfold_monad. cbn beta iota.
  destruct (sessionIds s !! c) as [id|]; [destruct (Js.truthy_string id)|]; reflexivity.
Qed.

(** C5: the removal the close callback does is idempotent. It never
    throws; when the registry has no entry under the id of the channel it
    leaves the registry unchanged; and done twice in a row, the second
    time leaves the registry as the first time left it, and does not
    throw either. *)
Theorem C5_removal_is_idempotent (c : chan) (s : state) :
  fst (onclose c s) = Returned tt
  /\ ((forall id, sessionIds s !! c = Some id -> transports s !! id = None) ->
      transports (snd (onclose c s)) = transports s)
  /\ fst (onclose c (snd (onclose c s))) = Returned tt
  /\ transports (snd (onclose c (snd (onclose c s)))) = transports (snd (onclose c s)).
Proof.
  assert (forall s', fst (onclose c s') = Returned tt) as Hret.
  { intros s'. rewrite onclose_unfold.
    destruct (sessionIds s' !! c) as [id|]; [destruct (Js.truthy_string id)|]; reflexivity. }
  split; [apply Hret|]. split; [|split; [apply Hret|]].
  - intros Habsent. rewrite onclose_unfold.
    destruct (sessionIds s !! c) as [id|] eqn:E; [|reflexivity].
    destruct (Js.truthy_string id); [|reflexivity].
    cbn. apply delete_absent, Habsent. reflexivity.
  - rewrite (onclose_unfold c s).
    destruct (sessionIds s !! c) as [id|] eqn:E.
    + destruct (Js.truthy_string id) eqn:Ht.
      * rewrite onclose_unfold. cbn. rewrite E, Ht. cbn. apply delete_twice.
      * rewrite onclose_unfold. cbn. now rewrite E, Ht.
    + rewrite onclose_unfold. cbn. now rewrite E.
Qed.

(** The session of [one_session] is closed, and closed again. *)
Lemma C5_closing_twice :
  fst (onclose 0 one_session) = Returned tt
  /\ transports (snd (onclose 0 one_session)) !! first_id = None
  /\ fst (onclose 0 (snd (onclose 0 one_session))) = Returned tt
  /\ transports (snd (onclose 0 (snd (onclose 0 one_session))))
     = transports (snd (onclose 0 one_session)).
Proof.
  destruct (C5_removal_is_idempotent 0 one_session) as (H1 & _ & H3 & H4).
  destruct (C5_removal_is_idempotent 0 (snd (onclose 0 one_session))) as (_ & H2 & _ & _).
  split; [exact H1|]. split; [reflexivity|]. split; [exact H3|].
  apply H2. intros id Hid.
  assert (id = first_id) as -> by (vm_compute in Hid; now injection Hid as <-).
  reflexivity.
Defined.

(** *** GET and DELETE /mcp (C6) *)

Definition invalid_or_missing : http_response :=
  {| code := 400; sent := TextBody "Invalid or missing session ID" |}.

(** A request whose header is absent, or empty, or neither registered
    nor a name that objects inherit, is answered with status 400 and a
    plain text, and the registry is as it was. *)
Lemma handleSessionRequest_refuses (env : sdk) (req : request) (s : state) :
  session_header req = None
  \/ session_header req = Some EmptyString
  \/ (exists id, session_header req = Some id
                 /\ transports s !! id = None /\ inherited id = false) ->
  handleSessionRequest env req s = (Returned tt, answered invalid_or_missing s)
  /\ transports (snd (handleSessionRequest env req s)) = transports s.
Proof.
  intros H.
  assert (known_session s (session_header req) = None) as Hknown.
  { unfold known_session, read.
    destruct H as [-> | [-> | (id & -> & Hl & Hi)]]; try reflexivity.
    rewrite Hl, Hi. now destruct (Js.truthy_string id). }
  assert (handleSessionRequest env req s = (Returned tt, answered invalid_or_missing s)) as Heq.
  { unfold handleSessionRequest. unfold bind at 1. unfold gets. cbn beta iota.
    now rewrite Hknown. }
  now rewrite Heq.
Qed.

(** C6 does not hold of the code: a GET or DELETE /mcp whose session-id
    header is ["constructor"], a name under which no session is
    registered, is not answered with status 400. [transports[sessionId]]
    finds the member that every object inherits, the handler takes it for
    a transport and calls [handleRequest] on it, and that call throws:
    nothing is written to the response. *)
Theorem C6_inherited_name_is_not_refused (env : sdk) (b : json) (s : state) :
  transports s !! "constructor" = None ->
  handleSessionRequest env {| session_header := Some "constructor"; body := b |} s
    = (Threw (TypeError "transport.handleRequest is not a function"), s).
Proof.
  intros Hl. unfold handleSessionRequest. unfold bind at 1. unfold gets. cbn beta iota.
  unfold known_session, read. cbn [session_header Js.truthy_string]. rewrite Hl.
  reflexivity.
Qed.

Lemma C6_constructor_on_one_session :
  handleSessionRequest initializing_sdk
    {| session_header := Some "constructor"; body := JNull |} one_session
  = (Threw (TypeError "transport.handleRequest is not a function"), one_session).
Proof.
  apply (C6_inherited_name_is_not_refused initializing_sdk JNull one_session).
  reflexivity.
Defined.

(** *** Exceptions in POST /mcp (C7) *)

Definition internal_error : http_response :=
  {| code := 500;
     sent := JsonBody (JObj [ ("jsonrpc", JStr "2.0");
                              ("error", JObj [ ("code", JNum (-32603));
                                               ("message", JStr "Internal server error") ]);
                              ("id", JNull) ]) |}.

(** C7: when the body of the [try] (looking the session up, constructing
    and connecting a channel, forwarding to a channel) throws [e], the
    handler does not throw: it logs the message of [e], and then, if no
    header of the response has been sent, it answers with status 500 and
    the JSON-RPC error of code -32603, and if headers have been sent it
    writes nothing more. *)
Theorem C7_internal_error_unless_headers_sent (env : sdk) (req : request) (s s1 : state) (e : js_error) :
  post_try env req s = (Threw e, s1) ->
  post_mcp env req s =
    (Returned tt,
     if headersSent s1
     then noted (Logged (LogError "Error handling MCP request" (error_text e))) s1
     else answered internal_error
            (noted (Logged (LogError "Error handling MCP request" (error_text e))) s1)).
Proof.
  intros Htry. unfold post_mcp, try_catch. rewrite Htry.
  unfold post_catch, logger_error. unfold bind at 1. rewrite emit_unfold.
  unfold bind at 1. unfold gets. cbn [headersSent noted negb].
  destruct (headersSent s1); reflexivity.
Qed.

(** A channel that has begun to answer and then fails. *)
Definition failing_sdk : sdk :=
  {| isInitializeRequest := is_initialize;
     constructor_throws := None;
     connect_throws := None;
     handleRequest := Do (Respond accepted) (Raise (JsError "stream closed")) |}.

Definition second_request : request :=
  {| session_header := Some first_id; body := tools_call_body |}.

Lemma C7_failure_after_headers :
  post_mcp failing_sdk second_request one_session =
    (Returned tt,
     if headersSent (snd (post_try failing_sdk second_request one_session))
     then noted (Logged (LogError "Error handling MCP request" (error_text (JsError "stream closed"))))
            (snd (post_try failing_sdk second_request one_session))
     else answered internal_error
            (noted (Logged (LogError "Error handling MCP request" (error_text (JsError "stream closed"))))
               (snd (post_try failing_sdk second_request one_session)))).
Proof.
  apply (C7_internal_error_unless_headers_sent failing_sdk second_request one_session).
  reflexivity.
Defined.

(** The journal of that request: the write of the channel, the log, and
    no second answer; and of a request whose channel cannot be
    constructed: the log and the answer 500. *)
Example C7_no_second_response :
  map what (trace (snd (post_mcp failing_sdk second_request one_session)))
  = map what (trace one_session)
    ++ [ Forwarded 0; Wrote accepted;
         Logged (LogError "Error handling MCP request" "stream closed") ].
Proof. reflexivity. Qed.

(** The same catch answers a POST whose header is a name that objects
    inherit: what [transports[sessionId]] finds is no transport. *)
Example post_with_inherited_name :
  map what (trace (snd (post_mcp initializing_sdk
                          {| session_header := Some "constructor"; body := tools_call_body |}
                          started)))
  = [ Logged (LogError "Error handling MCP request" "transport.handleRequest is not a function");
      Wrote internal_error ].
Proof. reflexivity. Qed.

Example C7_constructor_fails :
  map what (trace (snd (post_mcp
                          {| isInitializeRequest := is_initialize;
                             constructor_throws := Some (JsError "out of memory");
                             connect_throws := None;
                             handleRequest := Finish |}
                          first_request started)))
  = [ Logged (LogError "Error handling MCP request" "out of memory"); Wrote internal_error ].
Proof. reflexivity. Qed.

(** * Further properties of the search service and the tool *)

(** [s] begins with [p]. *)
Definition starts_with (p s : string) : Prop :=
  exists rest, s = p +:+ rest.

Lemma starts_with_app (p a b : string) : starts_with p a -> starts_with p (a +:+ b).
Proof. intros (r & ->). exists (r +:+ b). now rewrite app_assoc_s. Qed.

(** The state after [googleShoppingSSearch] has sent its request and
    logged [entries] next to the line it starts with. *)
Definition searched (r : http_get) (entries : list log_entry) (s : io) : io :=
  {| calls := calls s ++ [r];
     logs := logs s ++ LogInfo "Starting Google Shopping search" :: entries |}.

(** What [googleShoppingSSearch] does, by what comes back: the response
    body when there is one that is not [null], and otherwise an error
    that depends on the kind of failure. *)
Definition search_failure (e : js_error) : js_error :=
  match e with
  | AxiosError _ (Some response) _ =>
      match ToString.to_string (response_detail response) with
      | Some detail =>
          JsError ("SearchAPI request failed with status "
                   +:+ Js.number_to_string (status response) +:+ ": " +:+ detail)
      | None => TypeError ToString.cannot_convert
      end
  | AxiosError _ None true => JsError "SearchAPI request failed: No response received"
  | _ => JsError ("SearchAPI request failed: " +:+ error_text e)
  end.

Definition null_body : js_error :=
  TypeError "Cannot read properties of null (reading 'shopping_results')".

Lemma googleShoppingSSearch_unfold apiKey axios_get (p : GoogleShoppingSearchParams) (s : io) :
  googleShoppingSSearch apiKey axios_get p s =
  match axios_get (get_request apiKey p) with
  | Resolved response =>
      match data response with
      | JNull =>
          (Threw (search_failure null_body),
           searched (get_request apiKey p)
             [LogError "Google Shopping search failed" (error_text null_body)] s)
      | d =>
          (Returned d,
           searched (get_request apiKey p)
             [LogInfo "Google Shopping search completed successfully"] s)
      end
  | Rejected e =>
      (Threw (search_failure e),
       searched (get_request apiKey p)
         [LogError "Google Shopping search failed" (error_text e)] s)
  end.
Proof.
  unfold googleShoppingSSearch, await_axios_get, read_shopping_results, log, searched.
  unfold_monad. cbn beta iota.
  destruct (axios_get (get_request apiKey p)) as [resp | e]; cbn.
  - destruct (data resp); cbn; rewrite <- ?app_assoc; reflexivity.
  - destruct e as [m | m | m [r|] [|] | m]; cbn; unfold response_message;
      try destruct (ToString.to_string (response_detail r));
      cbn; rewrite <- ?app_assoc; reflexivity.
Qed.

(** The conversion to a string fails on objects and arrays only, and
    what [response_detail] gives that is no string of the status line is
    the truthy [message] of the body. *)
Lemma response_detail_unconvertible (r : axios_response) :
  ToString.to_string (response_detail r) = None ->
  exists props v,
    data r = JObj props /\ get "message" props = Some v
    /\ truthy v = true /\ ToString.to_string v = None.
Proof.
  unfold response_detail.
  destruct (data r) as [| | | | |props]; try discriminate.
  destruct (get "message" props) as [v|] eqn:E; [|discriminate].
  destruct (truthy v) eqn:T; [|discriminate].
  intros H. exists props, v. repeat split; assumption.
Qed.

(** The error of the service is its own [Error], but for the TypeError
    of a detail that cannot be converted. *)
Lemma search_failure_shape (e : js_error) :
  (exists m, search_failure e = JsError m /\ starts_with "SearchAPI request failed" m)
  \/ (search_failure e = TypeError ToString.cannot_convert
      /\ exists m response b,
           e = AxiosError m (Some response) b
           /\ ToString.to_string (response_detail response) = None).
Proof.
  destruct e as [m | m | m [r|] [|] | m]; cbn;
    try (left; eexists; (split; [reflexivity|]); exists (": " +:+ m); reflexivity).
  - destruct (ToString.to_string (response_detail r)) eqn:E.
    + left. eexists. split; [reflexivity|]. eexists. reflexivity.
    + right. split; [reflexivity|]. exists m, r, true. split; [reflexivity | exact E].
  - destruct (ToString.to_string (response_detail r)) eqn:E.
    + left. eexists. split; [reflexivity|]. eexists. reflexivity.
    + right. split; [reflexivity|]. exists m, r, false. split; [reflexivity | exact E].
  - left. eexists. split; [reflexivity|]. exists ": No response received". reflexivity.
Qed.

(** *** [googleShoppingSSearch] *)

(** X1: [googleShoppingSSearch] returns exactly when the request was
    answered with a body that is not [null], and then it returns that
    body as it came. *)
Theorem googleShoppingSSearch_returns_the_body apiKey axios_get
    (p : GoogleShoppingSearchParams) (s : io) (d : json) :
  fst (googleShoppingSSearch apiKey axios_get p s) = Returned d
  <-> exists response,
        axios_get (get_request apiKey p) = Resolved response
        /\ data response = d /\ d <> JNull.
Proof.
  rewrite googleShoppingSSearch_unfold. split.
  - destruct (axios_get (get_request apiKey p)) as [resp | e]; [|discriminate].
    destruct (data resp) eqn:E; cbn; intros H; try discriminate H;
      injection H as <-; exists resp; repeat split; try assumption; discriminate.
  - intros (resp & -> & <- & Hd).
    destruct (data resp); try reflexivity. now destruct Hd.
Qed.

(** X2: whatever goes wrong in [googleShoppingSSearch] (a rejected
    request of any kind, a body that is [null]), the axios error or the
    TypeError of the [null] body never leaves the service: what it throws
    is a plain [Error] whose message begins with "SearchAPI request
    failed".  There is one exception: when the search API answers with an
    error status and a body whose [message] is truthy and cannot be
    converted to a string (an object with a property [toString] of its
    own, or an array that holds one), the TypeError of that conversion is
    thrown inside the catch block and leaves the service. *)
Theorem googleShoppingSSearch_throws_its_own_errors apiKey axios_get
    (p : GoogleShoppingSearchParams) (s : io) (e : js_error) :
  fst (googleShoppingSSearch apiKey axios_get p s) = Threw e ->
  (exists m, e = JsError m /\ starts_with "SearchAPI request failed" m)
  \/ (e = TypeError "Cannot convert object to primitive value"
      /\ exists m response b props v,
           axios_get (get_request apiKey p) = Rejected (AxiosError m (Some response) b)
           /\ data response = JObj props /\ get "message" props = Some v
           /\ truthy v = true /\ ToString.to_string v = None).
Proof.
  rewrite googleShoppingSSearch_unfold.
  destruct (axios_get (get_request apiKey p)) as [resp | e'].
  - destruct (data resp); cbn; intros H; try discriminate H; injection H as <-.
    left. eexists. split; [reflexivity|]. eexists. reflexivity.
  - cbn. intros H. injection H as <-.
    destruct (search_failure_shape e') as [Hown | (-> & m & r & b & -> & Hnone)].
    + left. exact Hown.
    + right. split; [reflexivity|].
      destruct (response_detail_unconvertible r Hnone) as (props & v & Hd & Hm & Ht & Hv).
      exists m, r, b, props, v. repeat split; assumption.
Qed.

Definition no_params : GoogleShoppingSearchParams := {| q := "x"; rest := no_options |}.

(** An error status whose body has an object for its [message], with a
    property [toString]. *)
Definition unconvertible_body : json :=
  JObj [("message", JObj [("toString", JNum 1)])].

Definition unconvertible_api : http_get -> axios_result :=
  fun _ => Rejected (AxiosError "Request failed with status code 400"
                       (Some {| status := 400; statusText := "Bad Request";
                                data := unconvertible_body |}) true).

Lemma googleShoppingSSearch_unconvertible_message :
  (exists m, TypeError "Cannot convert object to primitive value" = JsError m
             /\ starts_with "SearchAPI request failed" m)
  \/ (TypeError "Cannot convert object to primitive value"
        = TypeError "Cannot convert object to primitive value"
      /\ exists m response b props v,
           unconvertible_api (get_request "key" no_params)
             = Rejected (AxiosError m (Some response) b)
           /\ data response = JObj props /\ get "message" props = Some v
           /\ truthy v = true /\ ToString.to_string v = None).
Proof.
  apply (googleShoppingSSearch_throws_its_own_errors "key" unconvertible_api no_params no_io).
  reflexivity.
Defined.

Example googleShoppingSSearch_unreachable :
  fst (googleShoppingSSearch "key" unreachable_api no_params no_io)
  = Threw (JsError "SearchAPI request failed: No response received").
Proof. reflexivity. Qed.

(** X3: when the search API answers with an error status, whatever the
    message of the axios error, the message of the error thrown names the
    status code, followed by the status text when the body is no object,
    has no [message] or has a falsy one, and by the [message] of the body
    converted to a string when it is truthy: the string itself when it is
    a non-empty string.  When that conversion fails, as it does for an
    object with a property [toString] of its own, its TypeError is thrown
    instead. *)
Theorem googleShoppingSSearch_status_error apiKey axios_get
    (p : GoogleShoppingSearchParams) (s : io)
    (m : string) (b : bool) (code : Z) (text : string) (d : json) :
  axios_get (get_request apiKey p)
    = Rejected (AxiosError m (Some {| status := code; statusText := text; data := d |}) b) ->
  let thrown := fst (googleShoppingSSearch apiKey axios_get p s) in
  let failed detail :=
    Threw (JsError ("SearchAPI request failed with status "
                    +:+ Js.number_to_string code +:+ ": " +:+ detail)) in
  ((forall props, d <> JObj props) -> thrown = failed text)
  /\ (forall props, d = JObj props -> get "message" props = None -> thrown = failed text)
  /\ (forall props v, d = JObj props -> get "message" props = Some v ->
        truthy v = false -> thrown = failed text)
  /\ (forall props t, d = JObj props -> get "message" props = Some (JStr t) ->
        t <> EmptyString -> thrown = failed t)
  /\ (forall props v, d = JObj props -> get "message" props = Some v ->
        truthy v = true ->
        thrown = match ToString.to_string v with
                 | Some t => failed t
                 | None => Threw (TypeError "Cannot convert object to primitive value")
                 end)
  /\ (forall props inner x, d = JObj props -> get "message" props = Some (JObj inner) ->
        get "toString" inner = Some x ->
        thrown = Threw (TypeError "Cannot convert object to primitive value")).
Proof.
  intros Hreq thrown failed. subst thrown failed.
  rewrite googleShoppingSSearch_unfold, Hreq. cbn [fst search_failure status].
  unfold response_detail. cbn [data statusText].
  split; [|split; [|split; [|split; [|split]]]].
  - intros Hno. destruct d; try reflexivity. now destruct (Hno props).
  - intros props -> ->. reflexivity.
  - intros props v -> -> ->. reflexivity.
  - intros props t -> ->. cbn. destruct t; [congruence | reflexivity].
  - intros props v -> -> ->. destruct (ToString.to_string v); reflexivity.
  - intros props inner x -> -> Hx. cbn. rewrite Hx. reflexivity.
Qed.

Definition rate_limited_api : http_get -> axios_result :=
  fun _ => Rejected (AxiosError "Request failed with status code 429"
                       (Some {| status := 429; statusText := "Too Many Requests";
                                data := JObj [("message", JStr "Monthly quota exceeded")] |})
                       true).

Lemma googleShoppingSSearch_rate_limited :
  fst (googleShoppingSSearch "key" rate_limited_api no_params no_io)
  = Threw (JsError "SearchAPI request failed with status 429: Monthly quota exceeded").
Proof.
  destruct (googleShoppingSSearch_status_error "key" rate_limited_api no_params no_io
              "Request failed with status code 429" true
              429 "Too Many Requests" (JObj [("message", JStr "Monthly quota exceeded")])
              eq_refl) as (_ & _ & _ & Hmessage & _ & _).
  rewrite (Hmessage [("message", JStr "Monthly quota exceeded")] "Monthly quota exceeded"
             eq_refl eq_refl); [reflexivity | discriminate].
Defined.

(** *** The callback over [SearchApiService] *)

Lemma service_call_unfold apiKey axios_get (a : ToolArgs) (s : io) :
  service_call (SearchApiService apiKey axios_get) a s =
  match googleShoppingSSearch apiKey axios_get (with_defaults (query a) (searchOptions a)) s with
  | (Returned d, s') =>
      (Returned (if Js.truthy_opt id (includeMetadata a) then d else results_or_empty d), s')
  | (Threw e, s') => (Threw e, s')
  end.
Proof.
  unfold service_call. cbn [SearchApiService svc_searchProducts svc_searchProductsWithMetadata].
  unfold searchProductsWithMetadata, searchProducts. unfold_monad.
  destruct (Js.truthy_opt id (includeMetadata a));
    destruct (googleShoppingSSearch apiKey axios_get _ s) as [[d|e] s']; reflexivity.
Qed.

(** The outcome of a call of the tool, by what the search API does. *)
Lemma handler_outcome apiKey axios_get (a : ToolArgs) (s : io) :
  fst (handler (SearchApiService apiKey axios_get) a s) =
  match axios_get (outbound apiKey a) with
  | Resolved response =>
      match data response with
      | JNull =>
          Threw (JsError ("Google Shopping search failed: "
                          +:+ error_text (search_failure null_body)))
      | d =>
          Returned (text_result (if Js.truthy_opt id (includeMetadata a)
                                 then d else results_or_empty d))
      end
  | Rejected e =>
      Threw (JsError ("Google Shopping search failed: " +:+ error_text (search_failure e)))
  end.
Proof.
  rewrite handler_unfold, service_call_unfold, googleShoppingSSearch_unfold.
  fold (outbound apiKey a).
  destruct (axios_get (outbound apiKey a)) as [resp | e]; [|reflexivity].
  destruct (data resp); reflexivity.
Qed.

(** X4: a response with a success status whose body is the JSON value
    [null] makes the call of the tool fail, with or without
    [includeMetadata]: the callback throws, and the message tells of the
    property read on [null]. *)
Theorem null_body_fails_the_call apiKey axios_get (a : ToolArgs) (s : io) (response : axios_response) :
  axios_get (outbound apiKey a) = Resolved response ->
  data response = JNull ->
  fst (handler (SearchApiService apiKey axios_get) a s)
  = Threw (JsError ("Google Shopping search failed: SearchAPI request failed: "
                    +:+ "Cannot read properties of null (reading 'shopping_results')")).
Proof.
  intros Hreq Hnull. now rewrite handler_outcome, Hreq, Hnull.
Qed.

Definition null_api : http_get -> axios_result :=
  fun _ => Resolved {| status := 200; statusText := "OK"; data := JNull |}.

Lemma null_body_fails_headphones :
  fst (handler (SearchApiService "key" null_api) headphones_call no_io)
  = Threw (JsError ("Google Shopping search failed: SearchAPI request failed: "
                    +:+ "Cannot read properties of null (reading 'shopping_results')")).
Proof.
  apply (null_body_fails_the_call "key" null_api headphones_call no_io
           {| status := 200; statusText := "OK"; data := JNull |}); reflexivity.
Defined.




(** X6: with [includeMetadata] true, the text of the result is the
    whole response body as [JSON.stringify] prints it, and every
    property of the body ([shopping_results], [search_metadata], ...) is
    in the text with its value. *)
Theorem metadata_call_returns_the_whole_body apiKey axios_get (a : ToolArgs) (s : io)
    (response : axios_response) :
  includeMetadata a = Some true ->
  axios_get (outbound apiKey a) = Resolved response ->
  data response <> JNull ->
  fst (handler (SearchApiService apiKey axios_get) a s)
    = Returned {| content := [TextContent (stringify (data response))] |}
  /\ forall props k v,
       data response = JObj props -> In (k, v) props ->
       occurs_in (QuoteJSONString k +:+ ": " +:+ serialize 1 v) (stringify (data response)).
Proof.
  intros Hm Hreq Hnn. split.
  - rewrite handler_outcome, Hreq, Hm. cbn [Js.truthy_opt id].
    destruct (data response); try reflexivity. now destruct Hnn.
  - intros props k v -> Hin. apply (serialize_property_occurs 0 props k v Hin).
Qed.

Definition metadata_call : ToolArgs :=
  {| query := "wireless headphones"; arg_location := None; country := None;
     language := None; maxResults := None; includeMetadata := Some true |}.

Definition metadata_api : http_get -> axios_result :=
  fun _ => Resolved {| status := 200; statusText := "OK";
                       data := JObj [("search_metadata", JObj [("status", JStr "Success")]);
                                     ("shopping_results", JArr (map result_json five_products))] |}.

Lemma metadata_call_has_both_parts :
  occurs_in (QuoteJSONString "search_metadata" +:+ ": "
             +:+ serialize 1 (JObj [("status", JStr "Success")]))
    (stringify (JObj [("search_metadata", JObj [("status", JStr "Success")]);
                      ("shopping_results", JArr (map result_json five_products))]))
  /\ occurs_in (QuoteJSONString "shopping_results" +:+ ": "
                +:+ serialize 1 (JArr (map result_json five_products)))
       (stringify (JObj [("search_metadata", JObj [("status", JStr "Success")]);
                         ("shopping_results", JArr (map result_json five_products))])).
Proof.
  destruct (metadata_call_returns_the_whole_body "key" metadata_api metadata_call no_io
              {| status := 200; statusText := "OK";
                 data := JObj [("search_metadata", JObj [("status", JStr "Success")]);
                               ("shopping_results", JArr (map result_json five_products))] |}
              eq_refl eq_refl ltac:(discriminate)) as (_ & Hin).
  split.
  - apply (Hin _ "search_metadata" _ eq_refl). left. reflexivity.
  - apply (Hin _ "shopping_results" _ eq_refl). right. left. reflexivity.
Defined.

(** X7: called directly, [searchProducts] and
    [searchProductsWithMetadata] send one and the same request.  In it an
    option the caller gave with a value, the empty string included, is
    sent as given (the spread of [options] comes after the defaults);
    country, language and location get their defaults only when
    [options] does not have the property; a property that [options] has
    with the value [undefined] overrides the default and nothing is sent
    for it; every other option is sent exactly when it has a value. *)
Theorem direct_search_sends_the_options_given apiKey axios_get
    (query : string) (options : SearchOptions) (s : io) :
  exists r,
    calls (snd (searchProducts apiKey axios_get query options s)) = calls s ++ [r]
    /\ calls (snd (searchProductsWithMetadata apiKey axios_get query options s)) = calls s ++ [r]
    /\ q (search r) = query
    /\ gl (rest (search r))
       = match gl options with
         | Absent => Some "us" | Undefined => None | Defined v => Some v
         end
    /\ hl (rest (search r))
       = match hl options with
         | Absent => Some "en" | Undefined => None | Defined v => Some v
         end
    /\ location (rest (search r))
       = match location options with
         | Absent => Some "United States" | Undefined => None | Defined v => Some v
         end
    /\ start (rest (search r)) = property_value (start options)
    /\ num (rest (search r)) = property_value (num options)
    /\ tbm (rest (search r)) = property_value (tbm options)
    /\ tbs (rest (search r)) = property_value (tbs options)
    /\ safe (rest (search r)) = property_value (safe options)
    /\ nfpr (rest (search r)) = property_value (nfpr options)
    /\ filter (rest (search r)) = property_value (filter options).
Proof.
  exists (get_request apiKey (with_defaults query options)).
  split; [|split].
  - unfold searchProducts. unfold_monad.
    pose proof (googleShoppingSSearch_calls apiKey axios_get (with_defaults query options) s) as H.
    destruct (googleShoppingSSearch apiKey axios_get (with_defaults query options) s)
      as [[v|e] s']; exact H.
  - apply googleShoppingSSearch_calls.
  - destruct options as [g h l st n b1 b2 sf nf fl].
    cbn -[spread1 property_value Js.or_string].
    split; [reflexivity|].
    split; [now destruct g|]. split; [now destruct h|]. split; [now destruct l|].
    repeat split;
      match goal with |- property_value (spread1 Absent ?x) = _ => now destruct x end.
Qed.

(** [searchProducts('x', { gl: undefined })] sends no [gl], and
    [searchProducts('x', { gl: '' })] sends the empty one. *)
Example undefined_country_is_not_sent :
  map (fun r => gl (rest (search r)))
    (calls (snd (searchProducts "key" unreachable_api "x"
                   {| gl := Undefined; hl := Absent; location := Absent; start := Absent;
                      num := Absent; tbm := Absent; tbs := Absent; safe := Absent;
                      nfpr := Absent; filter := Absent |} no_io)))
  = [None]
  /\ map (fun r => gl (rest (search r)))
       (calls (snd (searchProducts "key" unreachable_api "x"
                      {| gl := Defined EmptyString; hl := Absent; location := Absent;
                         start := Absent; num := Absent; tbm := Absent; tbs := Absent;
                         safe := Absent; nfpr := Absent; filter := Absent |} no_io)))
     = [Some EmptyString].
Proof. split; reflexivity. Qed.

(** X8: with [SearchApiService] for the service, every error a call of
    the tool throws is a plain [Error] whose message begins with the
    words of the callback, "Google Shopping search failed: ".  What
    follows are the words of the service, "SearchAPI request failed",
    but for one case: when the search API answers with an error status
    and a body whose [message] is truthy and cannot be converted to a
    string, what follows is the message of the TypeError of that
    conversion. *)
Theorem tool_errors_name_both_layers apiKey axios_get (a : ToolArgs) (s : io) (e : js_error) :
  fst (handler (SearchApiService apiKey axios_get) a s) = Threw e ->
  exists m,
    e = JsError m
    /\ (starts_with "Google Shopping search failed: SearchAPI request failed" m
        \/ (m = "Google Shopping search failed: Cannot convert object to primitive value"
            /\ exists text response b props v,
                 axios_get (outbound apiKey a) = Rejected (AxiosError text (Some response) b)
                 /\ data response = JObj props /\ get "message" props = Some v
                 /\ truthy v = true /\ ToString.to_string v = None)).
Proof.
  rewrite handler_outcome.
  destruct (axios_get (outbound apiKey a)) as [resp | cause].
  - destruct (data resp); cbv zeta; intros H; try discriminate H.
    injection H as <-. eexists. split; [reflexivity|]. left. eexists. reflexivity.
  - intros H. injection H as <-. eexists. split; [reflexivity|].
    destruct (search_failure_shape cause) as [(m & -> & (r & ->)) | (-> & m & r & b & -> & Hnone)].
    + left. exists r. reflexivity.
    + right. split; [reflexivity|].
      destruct (response_detail_unconvertible r Hnone) as (props & v & Hd & Hm & Ht & Hv).
      exists m, r, b, props, v. repeat split; assumption.
Qed.

Lemma tool_error_of_rate_limit :
  exists m,
    JsError ("Google Shopping search failed: SearchAPI request failed with status 429: "
             +:+ "Monthly quota exceeded") = JsError m
    /\ (starts_with "Google Shopping search failed: SearchAPI request failed" m
        \/ (m = "Google Shopping search failed: Cannot convert object to primitive value"
            /\ exists text response b props v,
                 rate_limited_api (outbound "key" headphones_call)
                   = Rejected (AxiosError text (Some response) b)
                 /\ data response = JObj props /\ get "message" props = Some v
                 /\ truthy v = true /\ ToString.to_string v = None)).
Proof.
  apply (tool_errors_name_both_layers "key" rate_limited_api headphones_call no_io).
  reflexivity.
Defined.

Example tool_error_of_unconvertible_message :
  fst (handler (SearchApiService "key" unconvertible_api) headphones_call no_io)
  = Threw (JsError "Google Shopping search failed: Cannot convert object to primitive value").
Proof. reflexivity. Qed.

(** X9: what a call of the tool leaves in the log. A call that returns
    has logged three lines of information and no error. A call that
    throws has logged two lines of information, then the failure twice:
    once by the service, with the message of what went wrong, and once by
    the callback, with the message of the error of the service, which is
    what the message of the error thrown ends with. *)
Theorem tool_call_log apiKey axios_get (a : ToolArgs) (s : io) :
  (forall r, fst (handler (SearchApiService apiKey axios_get) a s) = Returned r ->
     logs (snd (handler (SearchApiService apiKey axios_get) a s))
     = logs s ++ [ LogInfo "Processing Google Shopping search request";
                   LogInfo "Starting Google Shopping search";
                   LogInfo "Google Shopping search completed successfully" ])
  /\ (forall e, fst (handler (SearchApiService apiKey axios_get) a s) = Threw e ->
      exists cause detail,
        e = JsError ("Google Shopping search failed: " +:+ detail)
        /\ logs (snd (handler (SearchApiService apiKey axios_get) a s))
           = logs s ++ [ LogInfo "Processing Google Shopping search request";
                         LogInfo "Starting Google Shopping search";
                         LogError "Google Shopping search failed" cause;
                         LogError "Google Shopping search failed" detail ]).
Proof.
  rewrite handler_unfold, service_call_unfold, googleShoppingSSearch_unfold.
  destruct (axios_get _) as [resp | cause].
  - destruct (data resp) eqn:E; cbv zeta; cbn [fst snd]; split; intros x H; try discriminate H;
      try (cbn; rewrite <- app_assoc; reflexivity).
    injection H as <-. eexists _, _. split; [reflexivity|].
    cbn. rewrite <- !app_assoc. reflexivity.
  - cbn [fst snd]. split; intros x H; [discriminate H|].
    injection H as <-. eexists _, _. split; [reflexivity|].
    cbn. rewrite <- !app_assoc. reflexivity.
Qed.

(** *** The schema and the requests of a call *)

Definition is_string (v : option json) : Prop :=
  match v with Some (JStr _) => True | _ => False end.

Definition absent_or_string (v : option json) : Prop :=
  match v with None | Some (JStr _) => True | _ => False end.

Definition absent_or_number (v : option json) : Prop :=
  match v with None | Some (JNum _) => True | _ => False end.

Definition absent_or_boolean (v : option json) : Prop :=
  match v with None | Some (JBool _) => True | _ => False end.

(** X10: the arguments of a call pass the schema exactly when they are
    an object in which [query] is a string, [location], [country] and
    [language] are each absent or a string, [maxResults] is absent or a
    number and [includeMetadata] is absent or a boolean ([null] is none
    of these); other properties are ignored. *)
Theorem arguments_pass_when_well_typed (arguments : json) :
  (exists a, parse_arguments arguments = Some a)
  <-> exists props,
        arguments = JObj props
        /\ is_string (get "query" props)
        /\ absent_or_string (get "location" props)
        /\ absent_or_string (get "country" props)
        /\ absent_or_string (get "language" props)
        /\ absent_or_number (get "maxResults" props)
        /\ absent_or_boolean (get "includeMetadata" props).
Proof.
  split.
  - intros (a & Ha). destruct arguments as [| | | | |props]; try discriminate Ha.
    exists props. split; [reflexivity|]. unfold parse_arguments in Ha.
    destruct (get "query" props) as [[]|]; try discriminate Ha;
    destruct (get "location" props) as [[]|]; try discriminate Ha;
    destruct (get "country" props) as [[]|]; try discriminate Ha;
    destruct (get "language" props) as [[]|]; try discriminate Ha;
    destruct (get "maxResults" props) as [[]|]; try discriminate Ha;
    destruct (get "includeMetadata" props) as [[]|]; try discriminate Ha;
    repeat split.
  - intros (props & -> & Hq & Hl & Hc & Hh & Hn & Hm). unfold parse_arguments.
    destruct (get "query" props) as [[]|]; try destruct Hq;
    destruct (get "location" props) as [[]|]; try destruct Hl;
    destruct (get "country" props) as [[]|]; try destruct Hc;
    destruct (get "language" props) as [[]|]; try destruct Hh;
    destruct (get "maxResults" props) as [[]|]; try destruct Hn;
    destruct (get "includeMetadata" props) as [[]|]; try destruct Hm;
    eexists; reflexivity.
Qed.

(** X11: a call of the tool sends one request to the search API when
    its arguments pass the schema, the request built from the parsed
    arguments, and none when they do not. *)
Theorem call_sends_at_most_one_request apiKey axios_get (arguments : json) (s : io) :
  calls (snd (call_tool (SearchApiService apiKey axios_get) arguments s))
  = calls s ++ match parse_arguments arguments with
               | Some a => [outbound apiKey a]
               | None => []
               end.
Proof.
  unfold call_tool. destruct (parse_arguments arguments) as [a|].
  - pose proof (handler_calls_once apiKey axios_get a s) as H.
    destruct (handler (SearchApiService apiKey axios_get) a s) as [r s']. exact H.
  - cbn. now rewrite app_nil_r.
Qed.

(** * Further properties of [formatShoppingResults] *)

(** The lines [format_entry] joins. *)
Definition entry_lines (toLocaleString : Z -> string) (index : nat) (result : ShoppingResult)
  : list string :=
  [ Js.number_to_string (Z.of_nat index + 1) +:+ ". **" +:+ title result +:+ "**";
    "   Seller: " +:+ seller result;
    "   Price: " +:+ price result ]
  ++ match rating result with
     | Some r =>
         if Js.truthy_number r
         then ["   Rating: " +:+ Js.number_to_string r +:+ "/5 ("
               +:+ reviews_text toLocaleString (reviews result) +:+ " reviews)"]
         else []
     | None => []
     end
  ++ match delivery result with
     | Some d => if Js.truthy_string d then ["   Delivery: " +:+ d] else []
     | None => []
     end
  ++ match installment result with
     | Some i =>
         ["   Installment: " +:+ down_payment i +:+ " + " +:+ cost_per_month i
          +:+ " for " +:+ months i +:+ " months"]
     | None => []
     end
  ++ [ "   Product Link: " +:+ product_link result;
       "   Offers: " +:+ offers result +:+ " available" ].

Lemma format_entry_lines toLocaleString (index : nat) (result : ShoppingResult) :
  format_entry toLocaleString index result
  = join (str1 newline) (entry_lines toLocaleString index result).
Proof. reflexivity. Qed.

Lemma join_starts_with_head (sep p : string) (parts : list string) :
  starts_with p (join sep (p :: parts)).
Proof.
  destruct parts as [|x parts].
  - exists EmptyString. cbn. now rewrite app_nil_r_s.
  - exists (sep +:+ join sep (x :: parts)). reflexivity.
Qed.

(** X12: [formatShoppingResults] gives the sentence "No shopping
    results found." for the empty list and for no other list: the text
    for a list with an entry begins with the number 1. *)
Theorem formatShoppingResults_empty_only toLocaleString (results : list ShoppingResult) :
  (formatShoppingResults toLocaleString results = "No shopping results found."
   <-> results = [])
  /\ (results <> [] -> starts_with "1. **" (formatShoppingResults toLocaleString results)).
Proof.
  assert (results <> [] -> starts_with "1. **" (formatShoppingResults toLocaleString results))
    as Hstart.
  { destruct results as [|r rs]; [congruence|]. intros _.
    unfold formatShoppingResults. cbn [imap].
    destruct (join_starts_with_head (str1 newline +:+ str1 newline)
                (format_entry toLocaleString 0 r)
                (imap (format_entry toLocaleString ∘ S) rs)) as (rest & ->).
    apply starts_with_app. rewrite format_entry_lines.
    unfold entry_lines. cbn [app].
    match goal with
    | |- starts_with _ (join ?sep (?p :: ?parts)) =>
        destruct (join_starts_with_head sep p parts) as (rest' & Hj)
    end.
    rewrite Hj. apply starts_with_app.
    exists (title r +:+ "**"). reflexivity. }
  split; [|exact Hstart]. split.
  - intros Heq. destruct results as [|r rs]; [reflexivity|].
    destruct (Hstart ltac:(discriminate)) as (rest & Hrest).
    rewrite Heq in Hrest. discriminate Hrest.
  - intros ->. reflexivity.
Qed.

Lemma formatShoppingResults_five_products_start :
  starts_with "1. **" (formatShoppingResults Js.number_to_string five_products).
Proof.
  apply (formatShoppingResults_empty_only Js.number_to_string five_products).
  discriminate.
Defined.

Lemma entry_occurs toLocaleString (results : list ShoppingResult) (i : nat) (r : ShoppingResult) :
  results !! i = Some r ->
  occurs_in (format_entry toLocaleString i r) (formatShoppingResults toLocaleString results).
Proof.
  intros Hi. destruct results as [|r0 rs] eqn:E; [discriminate Hi|]. rewrite <- E in *.
  assert (formatShoppingResults toLocaleString results
          = join (str1 newline +:+ str1 newline) (imap (format_entry toLocaleString) results))
    as -> by (now rewrite E).
  apply join_occurs. apply list_elem_of_In, list_elem_of_lookup. exists i.
  now rewrite list_lookup_imap, Hi.
Qed.

(** X13: the text of [formatShoppingResults] has, for the entry at
    every index [i] of the list, the heading with the number [i + 1] and
    the title, and the lines of the seller, the price, the product link
    and the offers. *)
Theorem formatShoppingResults_lists_every_entry toLocaleString
    (results : list ShoppingResult) (i : nat) (r : ShoppingResult) :
  results !! i = Some r ->
  let text := formatShoppingResults toLocaleString results in
  occurs_in (Js.number_to_string (Z.of_nat i + 1) +:+ ". **" +:+ title r +:+ "**") text
  /\ occurs_in ("   Seller: " +:+ seller r) text
  /\ occurs_in ("   Price: " +:+ price r) text
  /\ occurs_in ("   Product Link: " +:+ product_link r) text
  /\ occurs_in ("   Offers: " +:+ offers r +:+ " available") text.
Proof.
  intros Hi text.
  assert (forall line, In line (entry_lines toLocaleString i r) -> occurs_in line text) as Hline.
  { intros line Hin. eapply occurs_in_trans; [|apply (entry_occurs toLocaleString results i r Hi)].
    rewrite format_entry_lines. now apply join_occurs. }
  unfold entry_lines in Hline.
  repeat split; apply Hline; rewrite !in_app_iff; cbn; auto 10.
Qed.

Lemma formatShoppingResults_third_product :
  let text := formatShoppingResults Js.number_to_string five_products in
  occurs_in (Js.number_to_string (Z.of_nat 2 + 1) +:+ ". **" +:+ "Charlie Pods" +:+ "**") text
  /\ occurs_in ("   Seller: " +:+ "SoundCo") text
  /\ occurs_in ("   Price: " +:+ "$39") text
  /\ occurs_in ("   Product Link: " +:+ "https://shop.example/3") text
  /\ occurs_in ("   Offers: " +:+ "1" +:+ " available") text.
Proof.
  apply (formatShoppingResults_lists_every_entry Js.number_to_string five_products 2
           (product 3 "Charlie Pods" "SoundCo" "$39" "https://shop.example/3")).
  reflexivity.
Defined.

(** The entry [r] with another rating, and with another delivery. *)
Definition with_rating (x : option Z) (r : ShoppingResult) : ShoppingResult :=
  {| position := position r; product_id := product_id r; title := title r;
     product_link := product_link r; seller := seller r; offers := offers r;
     extracted_offers := extracted_offers r; offers_link := offers_link r;
     price := price r; extracted_price := extracted_price r;
     installment := installment r; rating := x; reviews := reviews r;
     delivery := delivery r; thumbnail := thumbnail r |}.

Definition with_delivery (x : option string) (r : ShoppingResult) : ShoppingResult :=
  {| position := position r; product_id := product_id r; title := title r;
     product_link := product_link r; seller := seller r; offers := offers r;
     extracted_offers := extracted_offers r; offers_link := offers_link r;
     price := price r; extracted_price := extracted_price r;
     installment := installment r; rating := rating r; reviews := reviews r;
     delivery := x; thumbnail := thumbnail r |}.

(** X14: an entry's rating of 0 and an empty delivery are printed like
    a missing rating and a missing delivery, that is not at all; a rating
    other than 0 without a count of reviews is printed with "0 reviews". *)
Theorem falsy_rating_and_delivery_are_left_out toLocaleString (i : nat) (r : ShoppingResult) :
  format_entry toLocaleString i (with_rating (Some 0%Z) r)
    = format_entry toLocaleString i (with_rating None r)
  /\ format_entry toLocaleString i (with_delivery (Some EmptyString) r)
     = format_entry toLocaleString i (with_delivery None r)
  /\ forall x, x <> 0%Z -> reviews r = None ->
       In ("   Rating: " +:+ Js.number_to_string x +:+ "/5 (0 reviews)")
          (entry_lines toLocaleString i (with_rating (Some x) r)).
Proof.
  split; [reflexivity|]. split; [reflexivity|].
  intros x Hx Hrev. unfold entry_lines. cbn [rating reviews with_rating].
  rewrite Hrev. unfold Js.truthy_number.
  destruct (Z.eqb_spec x 0) as [|_]; [congruence|].
  rewrite !in_app_iff. right. left. left. reflexivity.
Qed.

(** * Configuration and start-up *)

(** ** The configuration module ([config/index.ts]) *)

Module Config.
Import Effects.

(** What [parseInt] gives: an integer, or [NaN]. *)
Inductive number :=
| Num (n : Z)
| NaN.

Record LoggingConfig := { level : string }.
Record ServerConfig := { port : number }.
Record SearchApiConfig := { apiKey : string; baseUrl : string; timeout : number }.

Record Config := {
  logging : LoggingConfig;
  server : ServerConfig;
  searchApi : SearchApiConfig
}.

Section Environment.

(** [parseInt(text, 10)] *)
Variable parseInt10 : string -> number.

(** [process.env], after [dotenv.config()]. *)
Variable env : gmap string string.

(** [process.env.NAME ? parseInt(process.env.NAME, 10) : fallback] *)
Definition number_or (name : string) (fallback : Z) : number :=
  match env !! name with
  | Some text => if Js.truthy_string text then parseInt10 text else Num fallback
  | None => Num fallback
  end.

Definition config : Config :=
  {| logging := {| level := Js.or_string (env !! "LOG_LEVEL") "info" |};
     server := {| port := number_or "PORT" 3000 |};
     searchApi :=
       {| apiKey := Js.or_string (env !! "SEARCHAPI_API_KEY") EmptyString;
          baseUrl := Js.or_string (env !! "SEARCHAPI_BASE_URL")
                       "https://www.searchapi.io/api/v1/search";
          timeout := number_or "SEARCHAPI_TIMEOUT" 30000 |} |}.

End Environment.

End Config.

(** ** The constructors ([SearchApiService], [McpServerApp]) *)

Module App.
Import Effects SearchApi.
Local Open Scope js_scope.

(** A [SearchApiService] object: its [apiKey]. *)
Record SearchApiServiceObject := { this_apiKey : string }.

(** [constructor(apiKey) { this.apiKey = apiKey; logger.info(...) }] *)
Definition new_SearchApiService (apiKey : string) : M io SearchApiServiceObject :=
  log (LogInfo "SearchAPI service initialized") ;;;
  ret {| this_apiKey := apiKey |}.

Record McpServerApp := { searchApiService : SearchApiServiceObject }.

(** [constructor() { if (!config.searchApi.apiKey) throw ...;
    this.searchApiService = new SearchApiService(config.searchApi.apiKey) }] *)
Definition new_McpServerApp (config : Config.Config) : M io McpServerApp :=
  if negb (Js.truthy_string (Config.apiKey (Config.searchApi config)))
  then throw (JsError "SEARCHAPI_API_KEY environment variable is required")
  else
    service <- new_SearchApiService (Config.apiKey (Config.searchApi config)) ;;
    ret {| searchApiService := service |}.

(** The methods of the service of an application, over a remote end. *)
Definition service_of (app : McpServerApp) (axios_get : http_get -> axios_result) : Tool.service :=
  Tool.SearchApiService (this_apiKey (searchApiService app)) axios_get.

End App.

(** X15: the application is constructed exactly when the environment
    has a non-empty SEARCHAPI_API_KEY; otherwise the constructor throws
    before anything else is done. A constructed application sends that key
    with every request of the tool, and always to the same address and
    with the same timeout: SEARCHAPI_BASE_URL and SEARCHAPI_TIMEOUT are
    read into the configuration and not used. *)
Theorem startup_needs_the_api_key (parseInt10 : string -> Config.number)
    (env : gmap string string) (s : io) :
  (fst (App.new_McpServerApp (Config.config parseInt10 env) s)
     = Threw (JsError "SEARCHAPI_API_KEY environment variable is required")
   <-> env !! "SEARCHAPI_API_KEY" = None \/ env !! "SEARCHAPI_API_KEY" = Some EmptyString)
  /\ (forall e, fst (App.new_McpServerApp (Config.config parseInt10 env) s) = Threw e ->
      snd (App.new_McpServerApp (Config.config parseInt10 env) s) = s)
  /\ forall app,
       fst (App.new_McpServerApp (Config.config parseInt10 env) s) = Returned app ->
       env !! "SEARCHAPI_API_KEY" = Some (App.this_apiKey (App.searchApiService app))
       /\ forall axios_get a s1,
            exists r,
              calls (snd (handler (App.service_of app axios_get) a s1)) = calls s1 ++ [r]
              /\ api_key r = App.this_apiKey (App.searchApiService app)
              /\ url r = "https://www.searchapi.io/api/v1/search"
              /\ timeout r = 30000%Z.
Proof.
  unfold App.new_McpServerApp, App.new_SearchApiService, log. unfold_monad.
  cbn [Config.config Config.searchApi Config.apiKey].
  destruct (env !! "SEARCHAPI_API_KEY") as [key|] eqn:E; cbn [Js.or_string].
  - destruct key as [|c key]; cbn.
    + split; [|split].
      * split; [now right | reflexivity].
      * reflexivity.
      * discriminate.
    + split; [|split].
      * split; [discriminate | intros [H | H]; discriminate H].
      * discriminate.
      * intros app [= <-]. split; [reflexivity|].
        intros axios_get a s1. exists (outbound (String c key) a).
        split; [apply handler_calls_once | repeat split].
  - cbn. split; [|split].
    + split; [now left | reflexivity].
    + reflexivity.
    + discriminate.
Qed.

(** * Further properties of the session gateway *)

(** What the gateway does itself (as opposed to what a channel does in
    [handleRequest]) is never among the entries a channel adds. *)
Definition by_channel (e : event) : Prop :=
  match e with
  | Confirmed _ _ | Registered _ _ | Closed _ | Removed _ | Wrote _ => True
  | Constructed _ | Connected _ | Forwarded _ | Logged _ => False
  end.

Lemma run_entries (c : chan) (k : script) (s : state) :
  exists entries,
    trace (snd (run c k s)) = trace s ++ entries
    /\ Forall (fun x => by_channel (what x)) entries.
Proof.
  revert s. induction k as [| e | a k IH]; intros s.
  - exists []. cbn. now rewrite app_nil_r.
  - exists []. cbn. now rewrite app_nil_r.
  - cbn [run]. unfold bind.
    assert (exists xs, perform c a s = (Returned tt, snd (perform c a s))
                       /\ trace (snd (perform c a s)) = trace s ++ xs
                       /\ Forall (fun x => by_channel (what x)) xs) as (xs & Hp & Htr & Hxs).
    { destruct a as [u | r |].
      - eexists [_; _]. split; [reflexivity|].
        cbn. rewrite <- app_assoc. split; [reflexivity|]. repeat constructor.
      - eexists [_]. split; [reflexivity|].
        cbn. split; [reflexivity|]. repeat constructor.
      - unfold perform, onclose. unfold_monad. cbn.
        destruct (sessionIds s !! c) as [id|]; [destruct (Js.truthy_string id)|].
        + eexists [_; _]. split; [reflexivity|].
          cbn. rewrite <- app_assoc. split; [reflexivity|]. repeat constructor.
        + eexists [_]. split; [reflexivity|].
          cbn. split; [reflexivity|]. repeat constructor.
        + eexists [_]. split; [reflexivity|].
          cbn. split; [reflexivity|]. repeat constructor. }
    rewrite Hp. destruct (IH (snd (perform c a s))) as (ys & Htr' & Hys).
    exists (xs ++ ys). split.
    + rewrite Htr', Htr. now rewrite app_assoc.
    + apply Forall_app. now split.
Qed.

Lemma post_catch_returns (e : js_error) (s : state) : fst (post_catch e s) = Returned tt.
Proof.
  unfold post_catch, logger_error. unfold bind at 1. rewrite emit_unfold.
  unfold bind at 1. unfold gets. cbn beta iota.
  destruct (negb (headersSent (noted _ s))); [rewrite write_unfold|]; reflexivity.
Qed.

(** X16: the handler of POST /mcp never throws: whatever the request,
    the state and the channel (its constructor, [connect] or
    [handleRequest] failing at any point), the promise of the handler is
    fulfilled. *)
Theorem post_mcp_never_throws (env : sdk) (req : request) (s : state) :
  fst (post_mcp env req s) = Returned tt.
Proof.
  unfold post_mcp, try_catch.
  destruct (post_try env req s) as [[[]|e] s1]; [reflexivity | apply post_catch_returns].
Qed.

(** ** The registry holds session ids only *)

(** Every key of the registry has the length of a session id, and every
    channel in it has been constructed. *)
Definition well_formed (s : state) : Prop :=
  forall id c, transports s !! id = Some c -> String.length id = 36 /\ c < created s.

Lemma well_formed_ext (s s' : state) :
  transports s' = transports s -> created s <= created s' ->
  well_formed s -> well_formed s'.
Proof.
  intros Ht Hc Hwf id c Hl. rewrite Ht in Hl. destruct (Hwf id c Hl). split; [assumption | lia].
Qed.

Lemma perform_well_formed (c : chan) (a : action) (s : state) :
  c < created s -> well_formed s ->
  well_formed (snd (perform c a s)) /\ created (snd (perform c a s)) = created s
  /\ fst (perform c a s) = Returned tt.
Proof.
  intros Hc Hwf. destruct a as [u | r |].
  - split; [|split; reflexivity]. intros id c' Hl. cbn in Hl |- *.
    destruct (decide (uuid_to_string u = id)) as [<- | Hne].
    + rewrite lookup_insert_eq in Hl. injection Hl as <-. split; [apply uuid_length | exact Hc].
    + rewrite lookup_insert_ne in Hl by exact Hne. now apply Hwf.
  - split; [|split; reflexivity]. now apply (well_formed_ext s).
  - unfold perform, onclose. unfold_monad. cbn.
    destruct (sessionIds s !! c) as [id|]; [destruct (Js.truthy_string id)|]; cbn;
      (split; [|split; reflexivity]); try (now apply (well_formed_ext s)).
    intros id' c' Hl. cbn in Hl |- *.
    destruct (decide (id = id')) as [<- | Hne].
    + now rewrite lookup_delete_eq in Hl.
    + rewrite lookup_delete_ne in Hl by exact Hne. now apply Hwf.
Qed.

Lemma run_well_formed (c : chan) (k : script) (s : state) :
  c < created s -> well_formed s ->
  well_formed (snd (run c k s)) /\ created (snd (run c k s)) = created s.
Proof.
  revert s. induction k as [| e | a k IH]; intros s Hc Hwf; [now cbn | now cbn |].
  destruct (perform_well_formed c a s Hc Hwf) as (Hwf1 & Hc1 & Hret).
  cbn [run]. unfold bind.
  destruct (perform c a s) as [[[]|e] s1]; cbn in Hwf1, Hc1, Hret; [|discriminate].
  destruct (IH s1 ltac:(lia) Hwf1) as (Hwf2 & Hc2). split; [assumption | lia].
Qed.

Lemma forward_unfold (env : sdk) (c : chan) (s : state) :
  forward env (Transport c) s = run c (handleRequest env) (noted (Forwarded c) s).
Proof. reflexivity. Qed.

Lemma known_session_own (s : state) (header : option string) (c : chan) :
  known_session s header = Some (Transport c) ->
  exists id, header = Some id /\ transports s !! id = Some c.
Proof.
  unfold known_session, read. destruct header as [id|]; [|discriminate].
  destruct (Js.truthy_string id); [|discriminate].
  destruct (transports s !! id) as [c'|] eqn:E.
  - intros [= <-]. now exists id.
  - destruct (inherited id); discriminate.
Qed.

(** What [create] leaves: the channel it returns is new, and whether it
    returns or throws at most one channel has been constructed and the
    registry is as it was. *)
Lemma create_state (env : sdk) (s : state) :
  transports (snd (create env s)) = transports s
  /\ created s <= created (snd (create env s)) <= S (created s)
  /\ (forall c, fst (create env s) = Returned c ->
      c = created s /\ created (snd (create env s)) = S (created s))
  /\ (created (snd (create env s)) = S (created s) <-> constructor_throws env = None).
Proof.
  unfold create. destruct (constructor_throws env) as [e|].
  - cbn. split; [reflexivity|]. split; [lia|]. split; [discriminate|].
    split; intros H; [lia | discriminate H].
  - unfold_monad. unfold emit. unfold_monad. cbn.
    destruct (connect_throws env) as [e|]; cbn;
      (split; [reflexivity|]); (split; [lia|]); (split; [|split; reflexivity]).
    + discriminate.
    + intros c [= <-]. split; reflexivity.
Qed.

Lemma handleSessionRequest_unfold (env : sdk) (req : request) (s : state) :
  handleSessionRequest env req s =
  match known_session s (session_header req) with
  | Some transport => forward env transport s
  | None => (Returned tt, answered invalid_or_missing s)
  end.
Proof.
  unfold handleSessionRequest. unfold bind at 1. unfold gets. cbn beta iota.
  destruct (known_session s (session_header req)); reflexivity.
Qed.

Lemma forward_well_formed (env : sdk) (t : member) (s : state) :
  (forall c, t = Transport c -> c < created s) -> well_formed s ->
  well_formed (snd (forward env t s)) /\ created (snd (forward env t s)) = created s.
Proof.
  intros Hc Hwf. destruct t as [c|]; [|now cbn].
  rewrite forward_unfold.
  destruct (run_well_formed c (handleRequest env) (noted (Forwarded c) s)) as (Hwf' & Hc').
  - apply (Hc c eq_refl).
  - now apply (well_formed_ext s).
  - split; [exact Hwf' | exact Hc'].
Qed.

Lemma post_mcp_well_formed (env : sdk) (req : request) (s : state) :
  well_formed s -> well_formed (snd (post_mcp env req s)).
Proof.
  intros Hwf.
  assert (well_formed (snd (post_try env req s))) as Htry.
  { rewrite post_try_unfold.
    destruct (known_session s (session_header req)) as [t|] eqn:Hk.
    - apply forward_well_formed; [|exact Hwf].
      intros c ->. destruct (known_session_own s _ c Hk) as (id & _ & Hl).
      now destruct (Hwf id c Hl).
    - destruct (negb _ && isInitializeRequest env (body req)).
      + unfold bind. destruct (create_state env s) as (Ht & Hc & Hret & _).
        destruct (create env s) as [[c|e] s1] eqn:Hcreate; cbn in Ht, Hc, Hret.
        * destruct (Hret c eq_refl) as (-> & Hs1).
          apply forward_well_formed; [intros c [= <-]; lia|].
          apply (well_formed_ext s); [exact Ht | lia | exact Hwf].
        * cbn. apply (well_formed_ext s); [exact Ht | lia | exact Hwf].
      + unfold reject. rewrite write_unfold. now apply (well_formed_ext s). }
  unfold post_mcp, try_catch.
  destruct (post_try env req s) as [[[]|e] s1]; cbn in Htry; [exact Htry|].
  destruct (post_catch_state e s1) as (Ht & Hc & _).
  apply (well_formed_ext s1); [exact Ht | lia | exact Htry].
Qed.

Lemma handleSessionRequest_well_formed (env : sdk) (req : request) (s : state) :
  well_formed s -> well_formed (snd (handleSessionRequest env req s)).
Proof.
  intros Hwf. rewrite handleSessionRequest_unfold.
  destruct (known_session s (session_header req)) as [t|] eqn:Hk.
  - apply forward_well_formed; [|exact Hwf].
    intros c ->. destruct (known_session_own s _ c Hk) as (id & _ & Hl).
    now destruct (Hwf id c Hl).
  - now apply (well_formed_ext s).
Qed.

(** The states of the process: the one it starts in, and the one in
    which the next request arrives after a POST, GET or DELETE /mcp has
    been handled (each request handled to its end before the next). *)
Inductive reachable : state -> Prop :=
| reach_started : reachable started
| reach_post env req s :
    reachable s -> reachable (arrive (snd (post_mcp env req s)))
| reach_session env req s :
    reachable s -> reachable (arrive (snd (handleSessionRequest env req s))).

Lemma reachable_well_formed (s : state) : reachable s -> well_formed s.
Proof.
  intros Hreach. induction Hreach as [| env req s _ IH | env req s _ IH].
  - intros id c Hl. cbn in Hl. now rewrite lookup_empty in Hl.
  - apply (well_formed_ext (snd (post_mcp env req s))); [reflexivity | cbn; lia |].
    now apply post_mcp_well_formed.
  - apply (well_formed_ext (snd (handleSessionRequest env req s))); [reflexivity | cbn; lia |].
    now apply handleSessionRequest_well_formed.
Qed.

(** X17: in every state the process reaches, each key of the registry
    is a session id of 36 characters, so never the empty string and never
    a name that objects inherit, and the channel stored under it is one
    that has been constructed. *)
Theorem registry_holds_session_ids (s : state) :
  reachable s ->
  forall id c, transports s !! id = Some c ->
    String.length id = 36
    /\ Js.truthy_string id = true
    /\ inherited id = false
    /\ c < created s.
Proof.
  intros Hreach. pose proof (reachable_well_formed s Hreach) as Hwf.
  intros id c Hl. destruct (Hwf id c Hl) as (Hlen & Hc).
  repeat split; try assumption.
  - destruct id; [discriminate Hlen | reflexivity].
  - destruct (inherited id) eqn:E; [|reflexivity].
    apply inherited_length in E. lia.
Qed.

Lemma registry_of_one_session :
  String.length first_id = 36
  /\ Js.truthy_string first_id = true
  /\ inherited first_id = false
  /\ 0 < created one_session.
Proof.
  apply (registry_holds_session_ids one_session
           (reach_post initializing_sdk first_request started reach_started) first_id 0).
  reflexivity.
Defined.

(** ** The journal of every request *)

(** From [s] to [s'] the journal has grown by entries that are orderly
    after any event, and that lead from the registry of [s] to the one of
    [s']. *)
Definition journal_step (s s' : state) : Prop :=
  forall previous,
    exists entries,
      trace s' = trace s ++ entries
      /\ orderly (transports s) previous entries
      /\ transports s' = registry_after (transports s) entries.

Lemma journal_same (s s' : state) :
  trace s' = trace s -> transports s' = transports s -> journal_step s s'.
Proof.
  intros Htr Ht previous. exists []. rewrite app_nil_r. repeat split; assumption.
Qed.

Lemma journal_trans (s s1 s2 : state) :
  journal_step s s1 -> journal_step s1 s2 -> journal_step s s2.
Proof.
  intros H1 H2 previous.
  destruct (H1 previous) as (xs & Htr & Hord & Hreg).
  destruct (H2 (event_before previous xs)) as (ys & Htr' & Hord' & Hreg').
  exists (xs ++ ys). split; [|split].
  - rewrite Htr', Htr. now rewrite app_assoc.
  - apply orderly_app; [exact Hord|]. rewrite <- Hreg. exact Hord'.
  - rewrite Hreg', Hreg. now rewrite registry_after_app.
Qed.

Lemma journal_noted (e : event) (s : state) :
  (forall id c, e <> Registered id c) -> (forall id, e <> Removed id) ->
  journal_step s (noted e s).
Proof.
  intros Hr Hd previous. exists [ {| what := e; registry := transports s |} ].
  split; [reflexivity|]. split; [|reflexivity].
  cbn. destruct e; try (repeat split; fail).
  - now destruct (Hr id c).
  - now destruct (Hd id).
Qed.

Lemma journal_answered (r : http_response) (s : state) : journal_step s (answered r s).
Proof.
  intros previous. exists [ {| what := Wrote r; registry := transports s |} ].
  repeat split.
Qed.

Lemma journal_run (c : chan) (k : script) (s : state) : journal_step s (snd (run c k s)).
Proof.
  intros previous. destruct (run_journal c k s previous) as (xs & Htr & Hord & Hreg & _).
  exists xs. repeat split; assumption.
Qed.

Lemma journal_forward (env : sdk) (t : member) (s : state) :
  journal_step s (snd (forward env t s)).
Proof.
  destruct t as [c|].
  - rewrite forward_unfold. eapply journal_trans; [|apply journal_run].
    apply journal_noted; unfold not; intros; discriminate.
  - now apply journal_same.
Qed.

Lemma journal_create (env : sdk) (s : state) : journal_step s (snd (create env s)).
Proof.
  unfold create. destruct (constructor_throws env) as [e|]; [now apply journal_same|].
  unfold_monad. unfold emit. unfold_monad. cbn.
  set (s0 := {| transports := transports s; sessionIds := sessionIds s;
                created := S (created s); headersSent := headersSent s; trace := trace s |}).
  assert (journal_step s s0) as H0 by now apply journal_same.
  destruct (connect_throws env) as [e|]; cbn.
  - eapply journal_trans; [exact H0|].
    apply (journal_noted (Constructed (created s)) s0); unfold not; intros; discriminate.
  - eapply journal_trans; [exact H0|]. eapply journal_trans.
    + apply (journal_noted (Constructed (created s)) s0); unfold not; intros; discriminate.
    + apply (journal_noted (Connected (created s))); unfold not; intros; discriminate.
Qed.

Lemma journal_post_catch (e : js_error) (s : state) : journal_step s (snd (post_catch e s)).
Proof.
  unfold post_catch, logger_error. unfold bind at 1. rewrite emit_unfold.
  unfold bind at 1. unfold gets. cbn beta iota.
  eapply journal_trans;
    [apply (journal_noted (Logged (LogError "Error handling MCP request" (error_text e))) s);
     unfold not; intros; discriminate|].
  destruct (negb _); [rewrite write_unfold; apply journal_answered | now apply journal_same].
Qed.

(** X18: in the journal of every request, on every route of POST /mcp
    and for GET and DELETE /mcp, the registry changes only where an id is
    registered or removed, and an id is registered only directly after a
    channel has confirmed that id: the gateway itself never writes the
    registry. *)
Theorem every_request_keeps_the_journal (env : sdk) (req : request) (s : state) :
  (exists entries,
      trace (snd (post_mcp env req s)) = trace s ++ entries
      /\ orderly (transports s) None entries
      /\ transports (snd (post_mcp env req s)) = registry_after (transports s) entries)
  /\ (exists entries,
        trace (snd (handleSessionRequest env req s)) = trace s ++ entries
        /\ orderly (transports s) None entries
        /\ transports (snd (handleSessionRequest env req s))
           = registry_after (transports s) entries).
Proof.
  split.
  - assert (journal_step s (snd (post_try env req s))) as Htry.
    { rewrite post_try_unfold.
      destruct (known_session s (session_header req)) as [t|]; [apply journal_forward|].
      destruct (negb _ && isInitializeRequest env (body req)).
      - unfold bind. pose proof (journal_create env s) as Hc.
        destruct (create env s) as [[c|e] s1]; cbn in Hc; [|exact Hc].
        eapply journal_trans; [exact Hc | apply journal_forward].
      - unfold reject. rewrite write_unfold. apply journal_answered. }
    assert (journal_step s (snd (post_mcp env req s))) as Hpost.
    { unfold post_mcp, try_catch.
      destruct (post_try env req s) as [[[]|e] s1]; cbn in Htry; [exact Htry|].
      eapply journal_trans; [exact Htry | apply journal_post_catch]. }
    apply (Hpost None).
  - assert (journal_step s (snd (handleSessionRequest env req s))) as H.
    { rewrite handleSessionRequest_unfold.
      destruct (known_session s (session_header req)) as [t|];
        [apply journal_forward | apply journal_answered]. }
    apply (H None).
Qed.

(** ** Sessions from creation to removal *)

Lemma forward_created (env : sdk) (t : member) (s : state) :
  created (snd (forward env t s)) = created s.
Proof.
  destruct t as [c|]; [|reflexivity]. rewrite forward_unfold.
  destruct (run_journal c (handleRequest env) (noted (Forwarded c) s) None) as (_ & _ & _ & _ & H).
  exact H.
Qed.

Lemma created_by_request (env : sdk) (req : request) (s : state) :
  created (snd (handleSessionRequest env req s)) = created s
  /\ created s <= created (snd (post_mcp env req s)) <= S (created s)
  /\ (created (snd (post_mcp env req s)) = S (created s)
      <-> known_session s (session_header req) = None
          /\ Js.truthy_opt Js.truthy_string (session_header req) = false
          /\ isInitializeRequest env (body req) = true
          /\ constructor_throws env = None).
Proof.
  split.
  { rewrite handleSessionRequest_unfold.
    destruct (known_session s (session_header req)); [apply forward_created | reflexivity]. }
  assert (created (snd (post_mcp env req s)) = created (snd (post_try env req s))) as ->.
  { unfold post_mcp, try_catch.
    destruct (post_try env req s) as [[[]|e] s1]; [reflexivity|].
    now destruct (post_catch_state e s1) as (_ & -> & _). }
  rewrite post_try_unfold.
  destruct (known_session s (session_header req)) as [t|] eqn:Hk.
  { rewrite forward_created. split; [lia|]. split; [lia|]. now intros (H & _). }
  destruct (Js.truthy_opt Js.truthy_string (session_header req)); cbn [negb andb].
  { cbn. split; [lia|]. split; [lia|]. now intros (_ & H & _). }
  destruct (isInitializeRequest env (body req)).
  - unfold bind. destruct (create_state env s) as (_ & Hc & Hret & Hiff).
    destruct (create env s) as [[c|e] s1]; cbn in Hc, Hret, Hiff; cbn [fst snd].
    + rewrite forward_created. split; [lia|]. rewrite Hiff. tauto.
    + split; [lia|]. rewrite Hiff. tauto.
  - cbn. split; [lia|]. split; [lia|]. now intros (_ & _ & H & _).
Qed.

(** X19: a POST /mcp constructs at most one channel, and constructs one
    exactly on the create route (no session found, header absent or
    empty, initialization body) when the constructor does not throw; GET
    and DELETE /mcp never construct a channel. *)
Theorem channels_are_constructed_on_create_only (env : sdk) (req : request) (s : state) :
  created (snd (handleSessionRequest env req s)) = created s
  /\ created s <= created (snd (post_mcp env req s)) <= S (created s)
  /\ (created (snd (post_mcp env req s)) = S (created s)
      <-> known_session s (session_header req) = None
          /\ Js.truthy_opt Js.truthy_string (session_header req) = false
          /\ isInitializeRequest env (body req) = true
          /\ constructor_throws env = None).
Proof. apply created_by_request. Qed.

(** X20: session affinity. After a create route on which the channel
    has initialized its session (and otherwise only answered), a POST,
    GET or DELETE /mcp that carries the session id is forwarded to that
    same channel, and no other channel is constructed for it. *)
Theorem session_affinity (env env' : sdk) (req req' : request) (s : state) (u : uuid) (k : script) :
  Js.truthy_opt Js.truthy_string (session_header req) = false ->
  isInitializeRequest env (body req) = true ->
  constructor_throws env = None ->
  connect_throws env = None ->
  handleRequest env = Do (InitializeSession u) k ->
  quiet k = true ->
  session_header req' = Some (uuid_to_string u) ->
  let s1 := arrive (snd (post_mcp env req s)) in
  post_try env' req' s1
    = run (created s) (handleRequest env') (noted (Forwarded (created s)) s1)
  /\ handleSessionRequest env' req' s1
     = run (created s) (handleRequest env') (noted (Forwarded (created s)) s1)
  /\ created (snd (post_mcp env' req' s1)) = created s1.
Proof.
  intros Hh Hinit Hctor Hconn Hk Hq Hh' s1.
  destruct (created_session_state env req s u k Hh Hinit Hctor Hconn Hk Hq) as (Ht & _ & Hc).
  assert (known_session s1 (session_header req') = Some (Transport (created s))) as Hknown.
  { rewrite Hh'. apply known_session_registered. subst s1. cbn [arrive transports].
    rewrite Ht. apply lookup_insert_eq. }
  split; [|split].
  - now rewrite post_try_unfold, Hknown.
  - now rewrite handleSessionRequest_unfold, Hknown.
  - destruct (created_by_request env' req' s1) as (_ & Hle & Hiff).
    destruct (Nat.eq_dec (created (snd (post_mcp env' req' s1))) (created s1)) as [|Hne];
      [assumption|].
    assert (created (snd (post_mcp env' req' s1)) = S (created s1)) as HS by lia.
    apply Hiff in HS. destruct HS as (Hnone & _). congruence.
Qed.

Lemma session_affinity_after_first_request :
  let s1 := arrive (snd (post_mcp initializing_sdk first_request started)) in
  post_try failing_sdk second_request s1
    = run (created started) (handleRequest failing_sdk) (noted (Forwarded (created started)) s1)
  /\ handleSessionRequest failing_sdk second_request s1
     = run (created started) (handleRequest failing_sdk) (noted (Forwarded (created started)) s1)
  /\ created (snd (post_mcp failing_sdk second_request s1)) = created s1.
Proof.
  apply (session_affinity initializing_sdk failing_sdk first_request second_request started
           first_uuid (Do (Respond accepted) Finish)); reflexivity.
Defined.

(** X21: when the channel of a session closes while a GET or DELETE
    /mcp for that session is handled, the session is gone from the
    registry, and the next request that carries its id is refused: a GET
    or DELETE with status 400 and the plain text, a POST, whatever its
    body, with status 400 and the error -32000. *)
Theorem closed_session_is_unknown (env : sdk) (req : request) (s : state)
    (u : uuid) (c : chan) (k : script) :
  transports s !! uuid_to_string u = Some c ->
  sessionIds s !! c = Some (uuid_to_string u) ->
  session_header req = Some (uuid_to_string u) ->
  handleRequest env = Do Close k ->
  quiet k = true ->
  let s1 := arrive (snd (handleSessionRequest env req s)) in
  transports s1 = delete (uuid_to_string u) (transports s)
  /\ (forall env' b,
        handleSessionRequest env' {| session_header := Some (uuid_to_string u); body := b |} s1
        = (Returned tt, answered invalid_or_missing s1))
  /\ (forall env' b,
        post_mcp env' {| session_header := Some (uuid_to_string u); body := b |} s1
        = (Returned tt, answered no_valid_session s1)).
Proof.
  intros Hl Hs Hh Hk Hq s1.
  assert (transports s1 = delete (uuid_to_string u) (transports s)) as Ht.
  { subst s1. cbn [arrive transports].
    rewrite handleSessionRequest_unfold, Hh, (known_session_registered s u c Hl), forward_unfold, Hk.
    cbn [run perform]. unfold onclose, emit. unfold_monad. cbn. rewrite Hs, uuid_truthy. cbn.
    match goal with
    | |- context [run ?c' k ?s2] => destruct (run_quiet c' k s2 Hq) as (-> & _ & _)
    end.
    reflexivity. }
  assert (known_session s1 (Some (uuid_to_string u)) = None) as Hknown.
  { unfold known_session, read. rewrite uuid_truthy, Ht, lookup_delete_eq.
    now rewrite uuid_not_inherited. }
  split; [exact Ht|]. split.
  - intros env' b. rewrite handleSessionRequest_unfold. cbn [session_header].
    now rewrite Hknown.
  - intros env' b. unfold post_mcp, try_catch. rewrite post_try_unfold. cbn [session_header].
    rewrite Hknown. cbn [Js.truthy_opt]. rewrite uuid_truthy. cbn [negb andb].
    unfold reject. now rewrite write_unfold.
Qed.

(** A channel that closes when it is asked to end its session. *)
Definition closing_sdk : sdk :=
  {| isInitializeRequest := is_initialize;
     constructor_throws := None;
     connect_throws := None;
     handleRequest := Do Close (Do (Respond accepted) Finish) |}.

Lemma closed_first_session_is_unknown :
  let s1 := arrive (snd (handleSessionRequest closing_sdk second_request one_session)) in
  transports s1 = delete (uuid_to_string first_uuid) (transports one_session)
  /\ (forall env' b,
        handleSessionRequest env'
          {| session_header := Some (uuid_to_string first_uuid); body := b |} s1
        = (Returned tt, answered invalid_or_missing s1))
  /\ (forall env' b,
        post_mcp env' {| session_header := Some (uuid_to_string first_uuid); body := b |} s1
        = (Returned tt, answered no_valid_session s1)).
Proof.
  apply (closed_session_is_unknown closing_sdk second_request one_session first_uuid 0
           (Do (Respond accepted) Finish)); reflexivity.
Defined.

(** X22: when the channel of a session throws [e] in [handleRequest],
    a GET or DELETE /mcp lets [e] escape: the handler throws [e], and
    what its journal has after the forwarding is what the channel did,
    no log line and no answer of the gateway. The POST /mcp for the same
    request does not throw, and its journal goes on with the log line of
    the error. *)
Theorem session_request_lets_the_error_escape (env : sdk) (req : request) (s : state)
    (c : chan) (e : js_error) :
  known_session s (session_header req) = Some (Transport c) ->
  fst (run c (handleRequest env) (noted (Forwarded c) s)) = Threw e ->
  fst (handleSessionRequest env req s) = Threw e
  /\ (exists entries,
        trace (snd (handleSessionRequest env req s))
        = trace s ++ {| what := Forwarded c; registry := transports s |} :: entries
        /\ Forall (fun x => by_channel (what x)) entries)
  /\ fst (post_mcp env req s) = Returned tt
  /\ exists rest,
       trace (snd (post_mcp env req s))
       = trace (snd (handleSessionRequest env req s))
         ++ {| what := Logged (LogError "Error handling MCP request" (error_text e));
               registry := transports (snd (handleSessionRequest env req s)) |} :: rest.
Proof.
  intros Hknown Hthrow.
  assert (handleSessionRequest env req s = run c (handleRequest env) (noted (Forwarded c) s))
    as Hget by (now rewrite handleSessionRequest_unfold, Hknown).
  assert (post_try env req s = run c (handleRequest env) (noted (Forwarded c) s))
    as Hpost by (now rewrite post_try_unfold, Hknown).
  rewrite Hget. split; [exact Hthrow|]. split; [|split].
  - destruct (run_entries c (handleRequest env) (noted (Forwarded c) s)) as (xs & Htr & Hxs).
    exists xs. split; [|exact Hxs]. rewrite Htr. cbn [noted trace]. now rewrite <- app_assoc.
  - unfold post_mcp, try_catch. destruct (post_try env req s) as [[[]|e0] s0]; [reflexivity | apply post_catch_returns].
  - unfold post_mcp, try_catch. rewrite Hpost.
    destruct (run c (handleRequest env) (noted (Forwarded c) s)) as [[[]|e'] s1];
      cbn in Hthrow; [discriminate Hthrow|]. injection Hthrow as ->.
    unfold post_catch, logger_error, write, emit. unfold_monad. cbn.
    destruct (headersSent s1); cbn; rewrite <- ?app_assoc; eexists; reflexivity.
Qed.

Lemma failing_channel_on_get_and_post :
  fst (handleSessionRequest failing_sdk second_request one_session)
    = Threw (JsError "stream closed")
  /\ (exists entries,
        trace (snd (handleSessionRequest failing_sdk second_request one_session))
        = trace one_session
          ++ {| what := Forwarded 0; registry := transports one_session |} :: entries
        /\ Forall (fun x => by_channel (what x)) entries)
  /\ fst (post_mcp failing_sdk second_request one_session) = Returned tt
  /\ exists rest,
       trace (snd (post_mcp failing_sdk second_request one_session))
       = trace (snd (handleSessionRequest failing_sdk second_request one_session))
         ++ {| what := Logged (LogError "Error handling MCP request"
                                 (error_text (JsError "stream closed")));
               registry := transports (snd (handleSessionRequest failing_sdk second_request
                                              one_session)) |} :: rest.
Proof.
  apply (session_request_lets_the_error_escape failing_sdk second_request one_session 0
           (JsError "stream closed")); reflexivity.
Defined.

(** X23: two sessions created one after the other are kept apart. The
    second is registered under its id with the second channel; the first
    stays registered under its id with the first channel when the two ids
    differ (two equal ids would leave the one entry with the second
    channel). *)
Theorem two_sessions_are_kept_apart (env1 env2 : sdk) (req1 req2 : request) (s : state)
    (u1 u2 : uuid) (k1 k2 : script) :
  Js.truthy_opt Js.truthy_string (session_header req1) = false ->
  Js.truthy_opt Js.truthy_string (session_header req2) = false ->
  isInitializeRequest env1 (body req1) = true ->
  isInitializeRequest env2 (body req2) = true ->
  constructor_throws env1 = None -> connect_throws env1 = None ->
  constructor_throws env2 = None -> connect_throws env2 = None ->
  handleRequest env1 = Do (InitializeSession u1) k1 -> quiet k1 = true ->
  handleRequest env2 = Do (InitializeSession u2) k2 -> quiet k2 = true ->
  let s2 := snd (post_mcp env2 req2 (arrive (snd (post_mcp env1 req1 s)))) in
  transports s2 !! uuid_to_string u2 = Some (S (created s))
  /\ (uuid_to_string u1 <> uuid_to_string u2 ->
      transports s2 !! uuid_to_string u1 = Some (created s))
  /\ created s2 = S (S (created s)).
Proof.
  intros Hh1 Hh2 Hi1 Hi2 Hc1 Hn1 Hc2 Hn2 Hk1 Hq1 Hk2 Hq2 s2.
  destruct (created_session_state env1 req1 s u1 k1 Hh1 Hi1 Hc1 Hn1 Hk1 Hq1) as (Ht1 & _ & Hcr1).
  destruct (created_session_state env2 req2 (arrive (snd (post_mcp env1 req1 s))) u2 k2
              Hh2 Hi2 Hc2 Hn2 Hk2 Hq2) as (Ht2 & _ & Hcr2).
  cbn [arrive transports created] in Ht2, Hcr2. rewrite Hcr1 in Ht2, Hcr2. rewrite Ht1 in Ht2.
  subst s2. rewrite Ht2, Hcr2. split; [apply lookup_insert_eq|]. split; [|reflexivity].
  intros Hne. rewrite lookup_insert_ne by congruence. apply lookup_insert_eq.
Qed.

Definition second_uuid : uuid :=
  {| time_low := 2596069104; time_mid := 4660; time_hi_and_version := 17185;
     clock_seq := 39612; node := 2 |}.

Definition second_initializing_sdk : sdk :=
  {| isInitializeRequest := is_initialize;
     constructor_throws := None;
     connect_throws := None;
     handleRequest := Do (InitializeSession second_uuid) (Do (Respond accepted) Finish) |}.

Lemma two_first_sessions :
  let s2 := snd (post_mcp second_initializing_sdk first_request
                   (arrive (snd (post_mcp initializing_sdk first_request started)))) in
  transports s2 !! uuid_to_string second_uuid = Some (S (created started))
  /\ (uuid_to_string first_uuid <> uuid_to_string second_uuid ->
      transports s2 !! uuid_to_string first_uuid = Some (created started))
  /\ created s2 = S (S (created started)).
Proof.
  apply (two_sessions_are_kept_apart initializing_sdk second_initializing_sdk
           first_request first_request started first_uuid second_uuid
           (Do (Respond accepted) Finish) (Do (Respond accepted) Finish)); reflexivity.
Defined.

(** X24: in every state the process reaches, a request whose session-id
    header is one of the names that objects inherit ("constructor",
    "toString", ...) is taken for a request of a known session: on GET
    and DELETE /mcp the handler throws a TypeError and writes nothing, on
    POST /mcp the answer is status 500 with the error -32603, not status
    400; the registry is left as it was. *)
Theorem inherited_names_pass_for_sessions (env : sdk) (s : state) (name : string) (b : json) :
  reachable s ->
  inherited name = true ->
  handleSessionRequest env {| session_header := Some name; body := b |} s
    = (Threw (TypeError "transport.handleRequest is not a function"), s)
  /\ (post_mcp env {| session_header := Some name; body := b |} s
      = (Returned tt,
         answered
           {| code := 500;
              sent := JsonBody (JObj [ ("jsonrpc", JStr "2.0");
                                       ("error", JObj [ ("code", JNum (-32603));
                                                        ("message", JStr "Internal server error") ]);
                                       ("id", JNull) ]) |}
           (noted (Logged (LogError "Error handling MCP request"
                             "transport.handleRequest is not a function")) s))).
Proof.
  intros Hreach Hname.
  assert (known_session s (Some name) = Some Inherited) as Hknown.
  { unfold known_session, read.
    assert (Js.truthy_string name = true) as ->.
    { destruct name; [discriminate Hname | reflexivity]. }
    destruct (transports s !! name) as [c|] eqn:E; [|now rewrite Hname].
    destruct (reachable_well_formed s Hreach name c E) as (Hlen & _).
    apply inherited_length in Hname. lia. }
  split.
  - rewrite handleSessionRequest_unfold. cbn [session_header]. now rewrite Hknown.
  - assert (headersSent s = false) as Hsent by (destruct Hreach; reflexivity).
    unfold post_mcp, try_catch. rewrite post_try_unfold. cbn [session_header].
    rewrite Hknown. cbn [forward throw].
    unfold post_catch, logger_error. unfold bind at 1. rewrite emit_unfold.
    unfold bind at 1. unfold gets. cbn [headersSent noted]. rewrite Hsent. cbn [negb].
    now rewrite write_unfold.
Qed.

Lemma constructor_header_on_one_session :
  handleSessionRequest initializing_sdk
    {| session_header := Some "constructor"; body := tools_call_body |} one_session
    = (Threw (TypeError "transport.handleRequest is not a function"), one_session)
  /\ (post_mcp initializing_sdk
        {| session_header := Some "constructor"; body := tools_call_body |} one_session
      = (Returned tt,
         answered
           {| code := 500;
              sent := JsonBody (JObj [ ("jsonrpc", JStr "2.0");
                                       ("error", JObj [ ("code", JNum (-32603));
                                                        ("message", JStr "Internal server error") ]);
                                       ("id", JNull) ]) |}
           (noted (Logged (LogError "Error handling MCP request"
                             "transport.handleRequest is not a function")) one_session))).
Proof.
  apply (inherited_names_pass_for_sessions initializing_sdk one_session "constructor"
           tools_call_body).
  - apply (reach_post initializing_sdk first_request started reach_started).
  - reflexivity.
Defined.

(** ** Two more examples *)

(** The log of a call against a search API that cannot be reached. *)
Lemma log_of_a_failed_call :
  exists cause detail,
    JsError "Google Shopping search failed: SearchAPI request failed: No response received"
      = JsError ("Google Shopping search failed: " +:+ detail)
    /\ logs (snd (handler (SearchApiService "key" unreachable_api) headphones_call no_io))
       = logs no_io ++ [ LogInfo "Processing Google Shopping search request";
                         LogInfo "Starting Google Shopping search";
                         LogError "Google Shopping search failed" cause;
                         LogError "Google Shopping search failed" detail ].
Proof.
  destruct (tool_call_log "key" unreachable_api headphones_call no_io) as (_ & Hthrown).
  apply (Hthrown (JsError
           "Google Shopping search failed: SearchAPI request failed: No response received")).
  reflexivity.
Defined.

(** An environment with a key, a base address and a timeout of its own. *)
Definition custom_environment : gmap string string :=
  {[ "SEARCHAPI_API_KEY" := "abc123";
     "SEARCHAPI_BASE_URL" := "http://localhost:9999/search";
     "SEARCHAPI_TIMEOUT" := "5" ]}.

Lemma startup_with_a_custom_environment :
  custom_environment !! "SEARCHAPI_API_KEY" = Some "abc123"
  /\ forall axios_get a s1,
       exists r,
         calls (snd (handler (Tool.SearchApiService "abc123" axios_get) a s1)) = calls s1 ++ [r]
         /\ api_key r = "abc123"
         /\ url r = "https://www.searchapi.io/api/v1/search"
         /\ timeout r = 30000%Z.
Proof.
  destruct (startup_needs_the_api_key (fun _ => Config.NaN) custom_environment no_io)
    as (_ & _ & Hstarted).
  apply (Hstarted {| App.searchApiService := {| App.this_apiKey := "abc123" |} |}).
  reflexivity.
Defined.
